(** * qp: the length-prefixed frame codec of container.go

    A shallow embedding of [write], [DecodeHdr], [Codec.Decode] and
    [Codec.Encode] together with the parts of Go's [io] and
    [encoding/binary] packages they call, followed by the properties of
    the framing contract.

    Conventions.
    - A Go [byte] is a [Byte.byte]; a [[]byte] is a [list byte].
    - A Go [uint32] is a [Z] in [0, 2^32); every operation on it writes its
      wrap-around out ([u32]).
    - A Go [int] holding a length or a count is a [nat]; the values met
      here are lengths of slices and the counts an [io.Writer] reports,
      which the [io.Writer] contract keeps in [0, len(p)].
    - A Go [error] is an [option error]: [None] is [nil]. *)

From Stdlib Require Import String ZArith List Lia Bool.
From coqutil Require Import Byte Z.bitblast.
Import ListNotations.

Local Open Scope Z_scope.

(** ** Errors *)

(** The error values the codec can meet: the two sentinels of package
    [io], and values made by [errors.New]. *)
Inductive error : Type :=
| EOF
| ErrUnexpectedEOF
| ErrNew (msg : string).

Definition errors_New (msg : string) : error := ErrNew msg.

Definition error_eqb (a b : error) : bool :=
  match a, b with
  | EOF, EOF => true
  | ErrUnexpectedEOF, ErrUnexpectedEOF => true
  | ErrNew s, ErrNew t => String.eqb s t
  | _, _ => false
  end.

(** [var ErrPayloadTooShort = errors.New("payload too short")] *)
Definition ErrPayloadTooShort : error := errors_New "payload too short".

(** What a function of an external collaborator (the registry, a message's
    own marshalling) hands back: a value, or an error. Go returns the pair
    [(value, err)]; the codec looks at the value only when [err == nil]. *)
Inductive result (A : Type) : Type :=
| Ok (a : A)
| Err (e : error).
Arguments Ok {A} a.
Arguments Err {A} e.

(** ** Machine integers and the header's byte order *)

(** Truncation to [uint32]. *)
Definition u32 (z : Z) : Z := z mod 2 ^ 32.

(** [len(b)] as an integer. *)
Definition len {A : Type} (b : list A) : Z := Z.of_nat (length b).

(** Modelled from the spec: the constant [HeaderSize] is declared outside
    container.go; the spec fixes the header at 5 bytes (a 4-byte size and a
    1-byte type), which is also the literal [Encode] and [DecodeHdr] use for
    the header buffer. *)
Definition HeaderSize : Z := 5.

(** [type MessageType byte] *)
Definition MessageType : Type := byte.

(** [binary.LittleEndian.Uint32(b)]:
    [uint32(b[0]) | uint32(b[1])<<8 | uint32(b[2])<<16 | uint32(b[3])<<24].
    Every caller passes a slice of 4 bytes (Go panics on a shorter one; no
    call in container.go can). *)
Definition Uint32 (b : list byte) : Z :=
  Z.lor (Z.lor (Z.lor (byte.unsigned (nth 0 b Byte.x00))
                      (Z.shiftl (byte.unsigned (nth 1 b Byte.x00)) 8))
               (Z.shiftl (byte.unsigned (nth 2 b Byte.x00)) 16))
        (Z.shiftl (byte.unsigned (nth 3 b Byte.x00)) 24).

(** [binary.LittleEndian.PutUint32(b, v)] on a 4-byte slice:
    [b[0] = byte(v); b[1] = byte(v >> 8); b[2] = byte(v >> 16);
     b[3] = byte(v >> 24)]. *)
Definition PutUint32 (v : Z) : list byte :=
  [ byte.of_Z v; byte.of_Z (Z.shiftr v 8);
    byte.of_Z (Z.shiftr v 16); byte.of_Z (Z.shiftr v 24) ].

(** The little-endian value of the first four bytes, written as a sum. *)
Definition le32 (b0 b1 b2 b3 : byte) : Z :=
  byte.unsigned b0 + 2 ^ 8 * byte.unsigned b1
  + 2 ^ 16 * byte.unsigned b2 + 2 ^ 24 * byte.unsigned b3.

(** ** Package [io]: readers *)

(** An [io.Reader] over a byte stream. [data] is what the stream still
    holds; once it is exhausted every [Read] returns the error [fin]
    ([io.EOF] for a stream that simply ends, the transport's error
    otherwise). One [Read] call hands over at most [S chunk] bytes, so a
    reader may deliver a frame in pieces of any positive size. [nreads]
    counts the [Read] calls made so far. *)
Record Reader : Type := mkReader {
  data : list byte;
  fin : error;
  chunk : nat;
  nreads : nat
}.

(** [r.Read(p)] with [want = len(p) > 0]: the bytes copied into [p], the
    error, and the reader afterwards. *)
Definition Read (r : Reader) (want : Z) : list byte * option error * Reader :=
  match data r with
  | [] => ([], Some (fin r), mkReader [] (fin r) (chunk r) (S (nreads r)))
  | _ :: _ =>
      let k := Z.to_nat (Z.min want (Z.of_nat (S (chunk r)))) in
      (firstn k (data r), None,
       mkReader (skipn k (data r)) (fin r) (chunk r) (S (nreads r)))
  end.

Definition is_nil (err : option error) : bool :=
  match err with None => true | Some _ => false end.

Definition is_EOF (err : option error) : bool :=
  match err with Some e => error_eqb e EOF | None => false end.

(** The loop of [io.ReadAtLeast(r, buf, min)] with [min = len(buf) = size]:
    [for n < min && err == nil { nn, err = r.Read(buf[n:]); n += nn }].
    [got] is [buf[:n]]. Every iteration with [err == nil] takes at least one
    byte from the stream, so [S (length (data r))] iterations are enough
    ([ReadFull_loop_spec] below); [fuel] only makes the recursion
    structural. *)
Fixpoint ReadFull_loop (fuel : nat) (r : Reader) (size : Z)
         (got : list byte) (err : option error)
  : list byte * option error * Reader :=
  match fuel with
  | O => (got, err, r)
  | S fuel' =>
      if (len got <? size) && is_nil err then
        let '(bs, e, r') := Read r (size - len got) in
        ReadFull_loop fuel' r' size (got ++ bs) e
      else (got, err, r)
  end.

(** [io.ReadFull(r, buf)] with [len(buf) = size]. Returns [buf[:n]] (so
    [n] is its length), the error and the reader afterwards:
    [if n >= min { err = nil } else if n > 0 && err == EOF
     { err = ErrUnexpectedEOF }]. *)
Definition ReadFull (r : Reader) (size : Z)
  : list byte * option error * Reader :=
  let '(got, err, r') :=
    ReadFull_loop (S (length (data r))) r size [] None in
  if size <=? len got then (got, None, r')
  else if (0 <? len got) && is_EOF err then (got, Some ErrUnexpectedEOF, r')
  else (got, err, r').

(** ** Package [io]: writers *)

(** An [io.Writer]: [Write w p] is [(n, err, w')], the number of bytes of
    [p] the writer accepted, the error, and the writer afterwards. *)
Class Writer (W : Type) : Type :=
  Write : W -> list byte -> nat * option error * W.

(** The outcome of running a loop for a bounded number of iterations:
    it returned an error value ([nil] included), or it was still running
    when the bound was reached. *)
Inductive outcome : Type :=
| Return (err : option error)
| Timeout.

(** The loop of [write]:
    [for written < l { written, err = w.Write(b[written:]);
                       if err != nil { return err } }; return nil].
    [fuel] bounds the number of [w.Write] calls. Note that the source
    assigns the count of the last call to [written]; it does not add it. *)
Fixpoint write_loop {W : Type} `{Writer W} (fuel : nat) (w : W)
         (b : list byte) (written : nat) : outcome * W :=
  if (written <? length b)%nat then
    match fuel with
    | O => (Timeout, w)
    | S fuel' =>
        let '(n, err, w') := Write w (skipn written b) in
        match err with
        | Some e => (Return (Some e), w')
        | None => write_loop fuel' w' b n
        end
    end
  else (Return None, w).

(** [func write(w io.Writer, b []byte) error] *)
Definition write {W : Type} `{Writer W} (fuel : nat) (w : W) (b : list byte)
  : outcome * W :=
  write_loop fuel w b 0.

(** ** Messages and the type registry *)

(** Modelled from the spec: the type [Tag] is declared outside
    container.go; the spec calls it an opaque correlation identifier that
    the framing core never interprets. *)
Definition Tag : Type := Z.

(** [type Message interface { encoding.BinaryUnmarshaler;
    encoding.BinaryMarshaler; GetTag() Tag }]. [UnmarshalBinary m b] is the
    receiver [m] after it filled itself from [b]. *)
Class Message (M : Type) : Type := {
  UnmarshalBinary : M -> list byte -> result M;
  MarshalBinary : M -> result (list byte);
  GetTag : M -> Tag
}.

(** [type Codec struct { M2MT func(Message) (MessageType, error);
    MT2M func(MessageType) (Message, error) }]. A registry is taken to
    return a usable message exactly when it returns no error. *)
Record Codec (M : Type) : Type := mkCodec {
  M2MT : M -> result MessageType;
  MT2M : MessageType -> result M
}.
Arguments mkCodec {M} _ _.
Arguments M2MT {M} _ _.
Arguments MT2M {M} _ _.

(** ** The frame codec *)

(** [func DecodeHdr(r io.Reader) (uint32, MessageType, error)] *)
Definition DecodeHdr (r : Reader) : Z * MessageType * option error * Reader :=
  let '(b, err, r') := ReadFull r 5 in
  if len b <? 5 then (0, Byte.x00, err, r')
  else
    let size := Uint32 (firstn 4 b) in
    let mt := nth 4 b Byte.x00 in
    (size, mt, err, r').

(** [func (c *Codec) Decode(r io.Reader) (Message, error)]. The result is
    Go's pair: the message ([None] is [nil]) and the error. *)
Definition Decode {M : Type} `{Message M} (c : Codec M) (r : Reader)
  : option M * option error * Reader :=
  let '(size, mt, err, r1) := DecodeHdr r in
  match err with
  | Some e => (None, Some e, r1)
  | None =>
      let size := u32 (size - HeaderSize) in
      let '(b, err, r2) := ReadFull r1 size in
      match err with
      | Some e => (None, Some e, r2)
      | None =>
          if negb (len b =? size) then
            (None, Some (errors_New "short read"), r2)
          else
            match MT2M c mt with
            | Err e => (None, Some e, r2)
            | Ok m =>
                match UnmarshalBinary m b with
                | Err e => (None, Some e, r2)
                | Ok m' => (Some m', None, r2)
                end
            end
      end
  end.

(** The 5-byte header [Encode] builds for a body [b] of type [mt]. *)
Definition header (mt : MessageType) (b : list byte) : list byte :=
  PutUint32 (u32 (len b + HeaderSize)) ++ [mt].

(** [func (c *Codec) Encode(w io.Writer, m Message) error]. [fuel] bounds
    the [w.Write] calls of each of the two [write] loops. *)
Definition Encode {M W : Type} `{Message M} `{Writer W}
           (fuel : nat) (c : Codec M) (w : W) (m : M) : outcome * W :=
  match M2MT c m with
  | Err e => (Return (Some e), w)
  | Ok mt =>
      match MarshalBinary m with
      | Err e => (Return (Some e), w)
      | Ok b =>
          let h := header mt b in
          match write fuel w h with
          | (Return None, w1) =>
              match write fuel w1 b with
              | (Return None, w2) => (Return None, w2)
              | stopped => stopped
              end
          | stopped => stopped
          end
      end
  end.

(** ** Concrete streams, writers and a small registry *)

(** An in-memory writer in the manner of [bytes.Buffer]: every [Write]
    accepts the whole slice. *)
Record Buffer : Type := mkBuffer { contents : list byte }.

#[export] Instance Buffer_Writer : Writer Buffer :=
  fun w p => (length p, None, mkBuffer (contents w ++ p)).

(** A writer with partial-write semantics: one [Write] accepts at most
    [limit] bytes of the slice and reports no error. [accepted] is every
    byte it took, in order. *)
Record ChunkWriter : Type := mkChunkWriter {
  accepted : list byte;
  limit : nat
}.

#[export] Instance ChunkWriter_Writer : Writer ChunkWriter :=
  fun w p =>
    let n := Nat.min (limit w) (length p) in
    (n, None, mkChunkWriter (accepted w ++ firstn n p) (limit w)).

(** A stream of [bs] that ends with [io.EOF] and delivers at most
    [S chunk] bytes per [Read]. *)
Definition stream (bs : list byte) (chunk : nat) : Reader :=
  mkReader bs EOF chunk 0.

(** A message variant set for examples: a kind and an opaque payload. The
    body of a message is its payload; kind 2 refuses an empty body in both
    directions. *)
Record RawMsg : Type := Raw { kind : byte; payload : list byte }.

Definition raw_unmarshal (m : RawMsg) (b : list byte) : result RawMsg :=
  match kind m, b with
  | Byte.x02, [] => Err ErrPayloadTooShort
  | _, _ => Ok (Raw (kind m) b)
  end.

Definition raw_marshal (m : RawMsg) : result (list byte) :=
  match kind m, payload m with
  | Byte.x02, [] => Err ErrPayloadTooShort
  | _, _ => Ok (payload m)
  end.

#[export] Instance RawMsg_Message : Message RawMsg := {
  UnmarshalBinary := raw_unmarshal;
  MarshalBinary := raw_marshal;
  GetTag := fun _ => 0
}.

Definition ErrUnknownMessageType : error :=
  errors_New "unknown message type".

(** A registry that knows the kinds 1 and 2. *)
Definition RawCodec : Codec RawMsg :=
  mkCodec
    (fun m => match kind m with
              | Byte.x01 | Byte.x02 => Ok (kind m)
              | _ => Err ErrUnknownMessageType
              end)
    (fun mt => match mt with
               | Byte.x01 | Byte.x02 => Ok (Raw mt [])
               | _ => Err ErrUnknownMessageType
               end).

(** [io.ErrShortWrite = errors.New("short write")] *)
Definition ErrShortWrite : error := errors_New "short write".

(** A writer with room for [room] more bytes, in the manner of a fixed
    buffer or a closing transport: a slice that fits is accepted whole;
    of one that does not, the writer takes what fits and reports
    [io.ErrShortWrite]. It keeps to the [io.Writer] contract (an error
    whenever [n < len(p)]). *)
Record LimitedWriter : Type := mkLimitedWriter {
  stored : list byte;
  room : nat
}.

#[export] Instance LimitedWriter_Writer : Writer LimitedWriter :=
  fun w p =>
    if (length p <=? room w)%nat then
      (length p, None,
       mkLimitedWriter (stored w ++ p) (room w - length p))
    else
      (room w, Some ErrShortWrite,
       mkLimitedWriter (stored w ++ firstn (room w) p) 0).

(** ** The spec's vocabulary *)

(** The errors a read that finds fewer bytes than it was asked for ends
    with when the stream simply ended: [io.EOF] (nothing was read),
    [io.ErrUnexpectedEOF] (the stream ended inside the block), or the
    codec's own "short read". *)
Definition ShortRead (e : error) : bool :=
  error_eqb e EOF || error_eqb e ErrUnexpectedEOF
  || error_eqb e (errors_New "short read").

(** The frame of a body [b] of type [mt] as the wire format lays it out. *)
Definition frame (mt : MessageType) (b : list byte) : list byte :=
  header mt b ++ b.

(** The reader [r] after [t] more bytes and [k] more [Read] calls. *)
Definition advance (r : Reader) (t k : nat) : Reader :=
  mkReader (skipn t (data r)) (fin r) (chunk r) (nreads r + k).

(** The error [io.ReadFull] reports when the stream [r] runs out inside the
    block: [io.ErrUnexpectedEOF] when some bytes came and the stream ended
    with [io.EOF], the stream's own error otherwise. *)
Definition short_error (r : Reader) : error :=
  if (0 <? len (data r)) && error_eqb (fin r) EOF then ErrUnexpectedEOF
  else fin r.

(** Steps 4 and 5 of decoding: resolve the type, then fill the instance
    from the body. *)
Definition resolve_and_fill {M : Type} `{Message M} (c : Codec M)
           (mt : MessageType) (b : list byte) : option M * option error :=
  match MT2M c mt with
  | Err e => (None, Some e)
  | Ok m =>
      match UnmarshalBinary m b with
      | Err e => (None, Some e)
      | Ok m' => (Some m', None)
      end
  end.

(** A body of 2^32 zero bytes. *)
Definition huge_body : list byte := repeat Byte.x00 (Z.to_nat (2 ^ 32)).

(** * Properties *)

(** ** Integers and byte order *)

Lemma u32_range (z : Z) : 0 <= u32 z < 2 ^ 32.
Proof. unfold u32. apply Z.mod_pos_bound. reflexivity. Qed.

Lemma u32_small (z : Z) : 0 <= z < 2 ^ 32 -> u32 z = z.
Proof. intros H. unfold u32. now apply Z.mod_small. Qed.

Lemma lor_shiftl_add (a b k : Z) :
  0 <= k -> 0 <= a < 2 ^ k -> Z.lor a (Z.shiftl b k) = a + 2 ^ k * b.
Proof.
  intros Hk Ha.
  assert (Hdisj : Z.land a (Z.shiftl b k) = 0).
  { apply Z.bits_inj'. intros n Hn.
    rewrite Z.land_spec, Z.testbit_0_l.
    destruct (Z.lt_ge_cases n k) as [Hlt | Hge].
    - rewrite Z.shiftl_spec_low by exact Hlt. apply andb_false_r.
    - rewrite <- (Z.mod_small a (2 ^ k)) by exact Ha.
      rewrite Z.mod_pow2_bits_high by lia. reflexivity. }
  rewrite <- Z.lxor_lor by exact Hdisj.
  rewrite <- Z.add_nocarry_lxor by exact Hdisj.
  rewrite Z.shiftl_mul_pow2 by exact Hk. ring.
Qed.

(** [Uint32] is the little-endian value of the four bytes. *)
Lemma Uint32_le32 (b0 b1 b2 b3 : byte) (rest : list byte) :
  Uint32 (b0 :: b1 :: b2 :: b3 :: rest) = le32 b0 b1 b2 b3.
Proof.
  pose proof (byte.unsigned_range b0) as H0.
  pose proof (byte.unsigned_range b1) as H1.
  pose proof (byte.unsigned_range b2) as H2.
  pose proof (byte.unsigned_range b3) as H3.
  unfold Uint32, le32. cbn [nth].
  rewrite (lor_shiftl_add (byte.unsigned b0)) by lia.
  rewrite (lor_shiftl_add (_ + _)) by lia.
  rewrite (lor_shiftl_add (_ + _)) by lia.
  reflexivity.
Qed.

Lemma le32_range (b0 b1 b2 b3 : byte) : 0 <= le32 b0 b1 b2 b3 < 2 ^ 32.
Proof.
  pose proof (byte.unsigned_range b0).
  pose proof (byte.unsigned_range b1).
  pose proof (byte.unsigned_range b2).
  pose proof (byte.unsigned_range b3).
  unfold le32. lia.
Qed.

(** Below the header size the subtraction [size -= HeaderSize] wraps. *)
Lemma body_length_wraps (total_size : Z) :
  0 <= total_size < HeaderSize ->
  u32 (total_size - HeaderSize) = total_size + 4294967291.
Proof.
  unfold u32, HeaderSize. intros Hsmall.
  rewrite <- (Z.mod_add _ 1) by lia.
  rewrite Z.mod_small; lia.
Qed.

(** [Uint32] reads back what [PutUint32] stored, truncated to 32 bits. *)
Lemma Uint32_PutUint32 (v : Z) (rest : list byte) :
  Uint32 (PutUint32 v ++ rest) = u32 v.
Proof.
  unfold Uint32, PutUint32, u32. cbn [nth app].
  rewrite !byte.unsigned_of_Z. unfold byte.wrap.
  rewrite <- !Z.land_ones by lia.
  Z.bitblast.
Qed.

(** ** [io.ReadFull] *)

Lemma advance_0 (r : Reader) : advance r 0 0 = r.
Proof. destruct r. unfold advance. cbn. now rewrite Nat.add_0_r. Qed.

Lemma firstn_add {A : Type} (a b : nat) (l : list A) :
  firstn (a + b) l = firstn a l ++ firstn b (skipn a l).
Proof.
  revert l. induction a as [| a IH]; intros l; [reflexivity |].
  destruct l as [| x l]; cbn.
  - now rewrite firstn_nil.
  - now rewrite IH.
Qed.

Lemma len_app {A : Type} (l1 l2 : list A) : len (l1 ++ l2) = len l1 + len l2.
Proof. unfold len. rewrite length_app. lia. Qed.

Lemma len_nonneg {A : Type} (l : list A) : 0 <= len l.
Proof. unfold len. lia. Qed.

Lemma ReadFull_loop_err (fuel : nat) (r : Reader) (size : Z)
      (got : list byte) (e : error) :
  ReadFull_loop fuel r size got (Some e) = (got, Some e, r).
Proof. destruct fuel; cbn; [| rewrite andb_false_r]; reflexivity. Qed.

(** The closed form of the read loop: it takes the first
    [min need (len data)] bytes of the stream, where [need] is what the
    buffer still lacks; it ends with the stream's own error exactly when the
    stream is shorter than [need]; and it calls [Read] if and only if
    [need] is positive. The fuel [S (length data)] always suffices. *)
Lemma ReadFull_loop_spec (fuel : nat) :
  forall (r : Reader) (size : Z) (got : list byte),
    (length (data r) < fuel)%nat ->
    exists k : nat,
      ReadFull_loop fuel r size got None =
        (got ++ firstn (Z.to_nat (Z.min (size - len got) (len (data r))))
                       (data r),
         (if len (data r) <? size - len got then Some (fin r) else None),
         advance r (Z.to_nat (Z.min (size - len got) (len (data r)))) k)
      /\ (size - len got <= 0 -> k = 0%nat)
      /\ (0 < size - len got -> (0 < k)%nat).
Proof.
  induction fuel as [| fuel IH]; intros r size got Hfuel; [lia |].
  pose proof (len_nonneg (data r)) as Hd.
  cbn [ReadFull_loop is_nil]. rewrite andb_true_r.
  destruct (Z.ltb_spec (len got) size) as [Hneed | Hdone].
  2:{ exists 0%nat.
      replace (Z.to_nat (Z.min (size - len got) (len (data r)))) with 0%nat
        by lia.
      rewrite advance_0. cbn [firstn]. rewrite app_nil_r.
      destruct (Z.ltb_spec (len (data r)) (size - len got)); [lia |].
      repeat split; lia. }
  unfold Read.
  destruct (data r) as [| x xs] eqn:Edata.
  - rewrite ReadFull_loop_err.
    exists 1%nat. unfold advance. rewrite Edata.
    replace (Z.to_nat (Z.min (size - len got) (len (@nil byte)))) with 0%nat
      by (unfold len; cbn; lia).
    cbn [firstn skipn].
    destruct (Z.ltb_spec (len (@nil byte)) (size - len got)) as [_ | Hge];
      [| unfold len in *; cbn in Hge; lia].
    rewrite Nat.add_1_r. split; [reflexivity | split; lia].
  - rewrite <- Edata in *.
    assert (Hlen : (0 < length (data r))%nat) by (rewrite Edata; cbn; lia).
    set (k0 := Z.to_nat (Z.min (size - len got) (Z.of_nat (S (chunk r))))).
    assert (Hk0 : (1 <= k0)%nat) by (subst k0; lia).
    assert (Hk0' : Z.of_nat k0 <= size - len got) by (subst k0; lia).
    set (r1 := mkReader (skipn k0 (data r)) (fin r) (chunk r) (S (nreads r))).
    destruct (IH r1 size (got ++ firstn k0 (data r))) as (k & Heq & _ & _).
    { subst r1. cbn [data]. rewrite length_skipn. lia. }
    rewrite Heq. exists (S k).
    split; [| split; lia].
    subst r1. unfold advance. cbn [data fin chunk nreads].
    rewrite len_app. unfold len in *.
    rewrite length_skipn, length_firstn.
    destruct (Nat.le_gt_cases k0 (length (data r))) as [Hle | Hgt].
    + rewrite Nat.min_l by exact Hle.
      replace (Z.to_nat (Z.min (size - Z.of_nat (length got))
                               (Z.of_nat (length (data r)))))
        with (k0 + Z.to_nat (Z.min (size - (Z.of_nat (length got)
                                             + Z.of_nat k0))
                                  (Z.of_nat (length (data r) - k0))))%nat
        by lia.
      rewrite firstn_add, skipn_skipn, <- app_assoc.
      rewrite (Nat.add_comm _ k0).
      replace (nreads r + S k)%nat with (S (nreads r) + k)%nat by lia.
      destruct (Z.ltb_spec (Z.of_nat (length (data r) - k0))
                           (size - (Z.of_nat (length got) + Z.of_nat k0)));
        destruct (Z.ltb_spec (Z.of_nat (length (data r)))
                             (size - Z.of_nat (length got)));
        try lia; reflexivity.
    + rewrite Nat.min_r by lia.
      replace (length (data r) - k0)%nat with 0%nat by lia.
      replace (Z.to_nat (Z.min (size - (Z.of_nat (length got)
                                        + Z.of_nat (length (data r))))
                               (Z.of_nat 0))) with 0%nat by lia.
      replace (Z.to_nat (Z.min (size - Z.of_nat (length got))
                               (Z.of_nat (length (data r)))))
        with (length (data r)) by lia.
      rewrite (firstn_all2 (n := k0)) by lia.
      rewrite (skipn_all2 (n := k0)) by lia.
      rewrite firstn_all, skipn_all. cbn [firstn skipn].
      rewrite app_nil_r.
      replace (nreads r + S k)%nat with (S (nreads r) + k)%nat by lia.
      destruct (Z.ltb_spec (Z.of_nat 0)
                           (size - (Z.of_nat (length got)
                                    + Z.of_nat (length (data r)))));
        destruct (Z.ltb_spec (Z.of_nat (length (data r)))
                             (size - Z.of_nat (length got)));
        try lia; reflexivity.
Qed.

(** A stream that holds [size] bytes or more: [ReadFull] returns the first
    [size] of them and no error, and touches the reader only when
    [size > 0]. *)
Lemma ReadFull_enough (r : Reader) (size : Z) :
  size <= len (data r) ->
  exists k : nat,
    ReadFull r size =
      (firstn (Z.to_nat size) (data r), None, advance r (Z.to_nat size) k)
    /\ (size <= 0 -> k = 0%nat) /\ (0 < size -> (0 < k)%nat).
Proof.
  intros Hsize. unfold ReadFull.
  destruct (ReadFull_loop_spec (S (length (data r))) r size [])
    as (k & Heq & Hk0 & Hk1); [lia |].
  rewrite Heq. clear Heq.
  change (len (@nil byte)) with 0 in *. rewrite Z.sub_0_r in *.
  rewrite Z.min_l by exact Hsize. cbn [app].
  exists k. split; [| split; assumption].
  unfold len in *. rewrite length_firstn.
  destruct (Z.leb_spec size (Z.of_nat (Nat.min (Z.to_nat size)
                                              (length (data r)))));
    [reflexivity | lia].
Qed.

(** A stream that holds fewer than [size] bytes: [ReadFull] drains it and
    reports [short_error]. *)
Lemma ReadFull_short (r : Reader) (size : Z) :
  len (data r) < size ->
  exists k : nat,
    ReadFull r size =
      (data r, Some (short_error r), advance r (length (data r)) k)
    /\ (0 < k)%nat.
Proof.
  intros Hsize. unfold ReadFull.
  pose proof (len_nonneg (data r)) as Hd.
  destruct (ReadFull_loop_spec (S (length (data r))) r size [])
    as (k & Heq & _ & Hk1); [lia |].
  rewrite Heq. clear Heq.
  change (len (@nil byte)) with 0 in *. rewrite Z.sub_0_r in *.
  rewrite Z.min_r by lia. cbn [app].
  exists k. split; [| apply Hk1; lia].
  unfold short_error, len in *. rewrite Nat2Z.id, firstn_all.
  destruct (Z.ltb_spec (Z.of_nat (length (data r))) size); [| lia].
  destruct (Z.leb_spec size (Z.of_nat (length (data r)))); [lia |].
  cbn [is_EOF].
  destruct ((0 <? Z.of_nat (length (data r))) && error_eqb (fin r) EOF);
    reflexivity.
Qed.

Lemma advance_data (r : Reader) (t k : nat) :
  data (advance r t k) = skipn t (data r).
Proof. reflexivity. Qed.

Lemma advance_fin (r : Reader) (t k : nat) : fin (advance r t k) = fin r.
Proof. reflexivity. Qed.

Lemma advance_advance (r : Reader) (t1 k1 t2 k2 : nat) :
  advance (advance r t1 k1) t2 k2 = advance r (t1 + t2) (k1 + k2).
Proof.
  unfold advance. cbn [data fin chunk nreads].
  rewrite skipn_skipn, (Nat.add_comm t2 t1), Nat.add_assoc. reflexivity.
Qed.

(** ** [DecodeHdr] *)

Lemma DecodeHdr_ok (r : Reader) (b0 b1 b2 b3 b4 : byte) (rest : list byte) :
  data r = b0 :: b1 :: b2 :: b3 :: b4 :: rest ->
  exists k : nat,
    DecodeHdr r = (le32 b0 b1 b2 b3, b4, None, advance r 5 k) /\ (0 < k)%nat.
Proof.
  intros Hdata. unfold DecodeHdr.
  destruct (ReadFull_enough r 5) as (k & Heq & _ & Hk).
  { rewrite Hdata. unfold len. cbn [length]. lia. }
  rewrite Heq, Hdata.
  change (Z.to_nat 5) with 5%nat. cbn [firstn nth].
  change (len [b0; b1; b2; b3; b4] <? 5) with false. cbv iota.
  rewrite Uint32_le32.
  exists k. split; [reflexivity | apply Hk; lia].
Qed.

Lemma DecodeHdr_short (r : Reader) :
  len (data r) < 5 ->
  exists k : nat,
    DecodeHdr r =
      (0, Byte.x00, Some (short_error r), advance r (length (data r)) k)
    /\ (0 < k)%nat.
Proof.
  intros Hshort. unfold DecodeHdr.
  destruct (ReadFull_short r 5 Hshort) as (k & Heq & Hk).
  rewrite Heq.
  destruct (Z.ltb_spec (len (data r)) 5); [| lia].
  exists k. split; [reflexivity | exact Hk].
Qed.

(** ** [Codec.Decode] *)

Section DecodeFacts.
Context {M : Type} `{Message M}.
Variable c : Codec M.

(** A header error ends the decode with that error. *)
Lemma Decode_header_short (r : Reader) :
  len (data r) < 5 ->
  exists k : nat,
    Decode c r =
      (None, Some (short_error r), advance r (length (data r)) k)
    /\ (0 < k)%nat.
Proof.
  intros Hshort. unfold Decode.
  destruct (DecodeHdr_short r Hshort) as (k & Heq & Hk).
  rewrite Heq. exists k. split; [reflexivity | exact Hk].
Qed.

(** After a complete header, the body length asked of the stream is
    [u32 (total_size - HeaderSize)]; when the stream holds that many
    bytes they are consumed and handed to the registry and the message. *)
Lemma Decode_body_read (r : Reader) (b0 b1 b2 b3 b4 : byte)
      (rest : list byte) :
  data r = b0 :: b1 :: b2 :: b3 :: b4 :: rest ->
  u32 (le32 b0 b1 b2 b3 - HeaderSize) <= len rest ->
  let n := Z.to_nat (u32 (le32 b0 b1 b2 b3 - HeaderSize)) in
  exists k : nat,
    Decode c r =
      (resolve_and_fill c b4 (firstn n rest), advance r (5 + n) k)
    /\ (0 < k)%nat.
Proof.
  intros Hdata Hlen n. unfold Decode.
  destruct (DecodeHdr_ok r _ _ _ _ _ _ Hdata) as (k1 & Heq1 & Hk1).
  rewrite Heq1.
  pose proof (u32_range (le32 b0 b1 b2 b3 - HeaderSize)) as Hr.
  destruct (ReadFull_enough (advance r 5 k1)
              (u32 (le32 b0 b1 b2 b3 - HeaderSize))) as (k2 & Heq2 & _).
  { rewrite advance_data, Hdata. exact Hlen. }
  rewrite Heq2, advance_data, Hdata. cbn [skipn]. fold n.
  assert (Hn : len (firstn n rest) = u32 (le32 b0 b1 b2 b3 - HeaderSize)).
  { unfold len in *. rewrite length_firstn. subst n. lia. }
  rewrite Hn, Z.eqb_refl. cbn [negb].
  rewrite advance_advance.
  exists (k1 + k2)%nat. split; [| lia].
  unfold resolve_and_fill.
  destruct (MT2M c b4) as [m | e]; [| reflexivity].
  destruct (UnmarshalBinary m (firstn n rest)); reflexivity.
Qed.

(** When the stream ends before the body is complete, the decode ends
    with the read error; the stream is drained. *)
Lemma Decode_body_short (r : Reader) (b0 b1 b2 b3 b4 : byte)
      (rest : list byte) :
  data r = b0 :: b1 :: b2 :: b3 :: b4 :: rest ->
  len rest < u32 (le32 b0 b1 b2 b3 - HeaderSize) ->
  exists k : nat,
    Decode c r =
      (None,
       Some (if (0 <? len rest) && error_eqb (fin r) EOF
             then ErrUnexpectedEOF else fin r),
       advance r (length (data r)) k)
    /\ (1 < k)%nat.
Proof.
  intros Hdata Hlen. unfold Decode.
  destruct (DecodeHdr_ok r _ _ _ _ _ _ Hdata) as (k1 & Heq1 & Hk1).
  rewrite Heq1.
  destruct (ReadFull_short (advance r 5 k1)
              (u32 (le32 b0 b1 b2 b3 - HeaderSize))) as (k2 & Heq2 & Hk2).
  { rewrite advance_data, Hdata. exact Hlen. }
  rewrite Heq2, advance_advance.
  unfold short_error. rewrite advance_data, advance_fin, Hdata.
  cbn [skipn length].
  exists (k1 + k2)%nat. split; [| lia].
  replace (5 + length rest)%nat with (S (S (S (S (S (length rest))))))
    by lia.
  reflexivity.
Qed.

(** A header that declares less than the header size: nothing stops the
    decode, which asks the stream for [total_size + 4294967291] more bytes
    and, on any stream shorter than that, drains it and fails with the read
    error. *)
Lemma Decode_underflow_drains_stream (r : Reader) (b0 b1 b2 b3 b4 : byte)
      (rest : list byte) :
  data r = b0 :: b1 :: b2 :: b3 :: b4 :: rest ->
  le32 b0 b1 b2 b3 < HeaderSize ->
  len rest < le32 b0 b1 b2 b3 + 4294967291 ->
  exists k : nat,
    Decode c r =
      (None,
       Some (if (0 <? len rest) && error_eqb (fin r) EOF
             then ErrUnexpectedEOF else fin r),
       advance r (length (data r)) k)
    /\ (1 < k)%nat.
Proof.
  intros Hdata Hsmall Hlen.
  pose proof (le32_range b0 b1 b2 b3) as Hr.
  apply (Decode_body_short r b0 b1 b2 b3 b4 rest Hdata).
  rewrite body_length_wraps by lia. exact Hlen.
Qed.

End DecodeFacts.

(** ** [write] *)

Section WriteFacts.
Context {W : Type} `{Writer W}.

(** A result of the loop does not depend on the bound: once it returned
    within [fuel] calls, it returns the same with any larger bound. *)
Lemma write_loop_more_fuel (fuel : nat) :
  forall (w w' : W) (b : list byte) (written : nat) (err : option error),
    write_loop fuel w b written = (Return err, w') ->
    forall extra : nat,
      write_loop (fuel + extra) w b written = (Return err, w').
Proof.
  induction fuel as [| fuel IH]; intros w w' b written err Hrun extra.
  - cbn [write_loop] in Hrun.
    destruct extra; cbn [Nat.add write_loop];
      destruct (written <? length b)%nat; congruence.
  - cbn [Nat.add write_loop] in *.
    destruct (written <? length b)%nat; [| exact Hrun].
    destruct (Write w (skipn written b)) as [[n e] w1].
    destruct e as [e |]; [exact Hrun |].
    now apply IH.
Qed.

(** Nothing to write: no call is made. *)
Lemma write_nil (fuel : nat) (w : W) : write fuel w [] = (Return None, w).
Proof. destruct fuel; reflexivity. Qed.

(** A first call that accepts the whole slice ends the loop. *)
Lemma write_whole (fuel : nat) (w w' : W) (b : list byte) (n : nat) :
  b <> [] ->
  Write w b = (n, None, w') ->
  (length b <= n)%nat ->
  write (S fuel) w b = (Return None, w').
Proof.
  intros Hb Hw Hn. unfold write.
  destruct b as [| x b]; [congruence |].
  cbn [write_loop length Nat.ltb Nat.leb skipn]. rewrite Hw.
  destruct fuel; cbn [write_loop];
    destruct (Nat.ltb_spec n (length (x :: b))); try lia; reflexivity.
Qed.

(** A first call that reports an error ends the loop with it. *)
Lemma write_error (fuel : nat) (w w' : W) (b : list byte) (n : nat)
      (e : error) :
  b <> [] ->
  Write w b = (n, Some e, w') ->
  write (S fuel) w b = (Return (Some e), w').
Proof.
  intros Hb Hw. unfold write.
  destruct b as [| x b]; [congruence |].
  cbn [write_loop length Nat.ltb Nat.leb skipn]. rewrite Hw. reflexivity.
Qed.

End WriteFacts.

Lemma write_Buffer (fuel : nat) (w : Buffer) (b : list byte) :
  write (S fuel) w b = (Return None, mkBuffer (contents w ++ b)).
Proof.
  destruct b as [| x b].
  - rewrite write_nil, app_nil_r. now destruct w.
  - apply write_whole with (n := length (x :: b));
      [discriminate | reflexivity | lia].
Qed.

(** ** [Codec.Encode] *)

Section EncodeFacts.
Context {M : Type} `{Message M}.
Variable c : Codec M.

(** Into an in-memory buffer, [Encode] appends the frame. *)
Lemma Encode_Buffer (fuel : nat) (w : Buffer) (m : M) (mt : MessageType)
      (b : list byte) :
  M2MT c m = Ok mt ->
  MarshalBinary m = Ok b ->
  Encode (S fuel) c w m
  = (Return None, mkBuffer (contents w ++ frame mt b)).
Proof.
  intros Hmt Hb. unfold Encode. rewrite Hmt, Hb.
  rewrite !write_Buffer. cbn [contents].
  unfold frame. now rewrite app_assoc.
Qed.

(** The body length a decoder derives from the header [Encode] wrote. *)
Lemma header_body_length (mt : MessageType) (b rest : list byte) :
  exists p0 p1 p2 p3 : byte,
    frame mt b ++ rest = p0 :: p1 :: p2 :: p3 :: mt :: b ++ rest
    /\ u32 (le32 p0 p1 p2 p3 - HeaderSize) = u32 (len b).
Proof.
  unfold frame, header.
  pose proof (Uint32_PutUint32 (u32 (len b + HeaderSize)) []) as Hu.
  unfold PutUint32 in *. cbn [app] in *.
  do 4 eexists. split; [reflexivity |].
  rewrite <- (Uint32_le32 _ _ _ _ []), Hu.
  unfold u32, HeaderSize.
  rewrite Z.mod_mod by lia.
  rewrite Zminus_mod_idemp_l. f_equal. lia.
Qed.

(** Decoding a stream that starts with an encoded frame: the decoder
    reads [u32 (len b)] body bytes. *)
Lemma Decode_frame (r : Reader) (mt : MessageType) (b rest : list byte) :
  data r = frame mt b ++ rest ->
  u32 (len b) <= len (b ++ rest) ->
  let n := Z.to_nat (u32 (len b)) in
  exists k : nat,
    Decode c r
    = (resolve_and_fill c mt (firstn n (b ++ rest)), advance r (5 + n) k).
Proof.
  intros Hdata Hlen n.
  destruct (header_body_length mt b rest) as (p0 & p1 & p2 & p3 & Hf & Hn).
  rewrite Hf in Hdata.
  destruct (Decode_body_read c r _ _ _ _ _ _ Hdata) as (k & Heq & _).
  { rewrite Hn. exact Hlen. }
  rewrite Hn in Heq. exists k. exact Heq.
Qed.

End EncodeFacts.

(** * The framing contract *)

(** ** Header parsing *)

(** C5. From a reader that supplies at least 5 bytes, [DecodeHdr] returns
    as total size the unsigned 32-bit little-endian value of bytes 0-3 and
    as type id byte 4, with no error, and consumes exactly those 5 bytes:
    the reader is left at the sixth byte. *)
Theorem DecodeHdr_complete_header
        (r : Reader) (b0 b1 b2 b3 b4 : byte) (rest : list byte) :
  data r = b0 :: b1 :: b2 :: b3 :: b4 :: rest ->
  exists r' : Reader,
    DecodeHdr r = (le32 b0 b1 b2 b3, b4, None, r')
    /\ 0 <= le32 b0 b1 b2 b3 < 2 ^ 32
    /\ data r' = rest
    /\ fin r' = fin r.
Proof.
  intros Hdata.
  destruct (DecodeHdr_ok r _ _ _ _ _ _ Hdata) as (k & Heq & _).
  exists (advance r 5 k).
  split; [exact Heq |].
  split; [apply le32_range |].
  rewrite advance_data, advance_fin, Hdata. split; reflexivity.
Qed.

Lemma DecodeHdr_complete_header_witness :
  exists r' : Reader,
    DecodeHdr (stream [Byte.x0b; Byte.x01; Byte.x00; Byte.x00; Byte.x64;
                       Byte.xaa; Byte.xbb] 1)
    = (le32 Byte.x0b Byte.x01 Byte.x00 Byte.x00, Byte.x64, None, r')
    /\ 0 <= le32 Byte.x0b Byte.x01 Byte.x00 Byte.x00 < 2 ^ 32
    /\ data r' = [Byte.xaa; Byte.xbb]
    /\ fin r' = EOF.
Proof.
  apply (DecodeHdr_complete_header
           (stream [Byte.x0b; Byte.x01; Byte.x00; Byte.x00; Byte.x64;
                    Byte.xaa; Byte.xbb] 1)).
  reflexivity.
Defined.

(** ** Decoding *)

(** C1. The code has no check for a declared total size below 5. At the
    header [04 00 00 00 01] the subtraction wraps: the body length asked of
    the stream is 4294967295, the byte that follows the header is consumed
    by two more [Read] calls, and the decode ends with
    [io.ErrUnexpectedEOF]. *)
Theorem Decode_underflow_reads_on :
  DecodeHdr (stream [Byte.x04; Byte.x00; Byte.x00; Byte.x00; Byte.x01;
                     Byte.xaa] 0)
  = (4, Byte.x01, None, mkReader [Byte.xaa] EOF 0 5)
  /\ u32 (4 - HeaderSize) = 4294967295
  /\ Decode RawCodec
            (stream [Byte.x04; Byte.x00; Byte.x00; Byte.x00; Byte.x01;
                     Byte.xaa] 0)
     = (None, Some ErrUnexpectedEOF, mkReader [] EOF 0 7).
Proof. repeat split; vm_compute; reflexivity. Qed.

Section DecodeContract.
Context {M : Type} `{Message M}.
Variable c : Codec M.

(** C6. From a stream that ends after fewer than 5 bytes, and from a
    stream that ends after a valid header (total size at least 5) but
    before [total_size - 5] body bytes, [Decode] returns no message and
    a short-read error. *)
Theorem Decode_short_stream (r : Reader) :
  fin r = EOF ->
  len (data r) < 5
  \/ (exists (b0 b1 b2 b3 b4 : byte) (rest : list byte),
        data r = b0 :: b1 :: b2 :: b3 :: b4 :: rest
        /\ 5 <= le32 b0 b1 b2 b3
        /\ len rest < le32 b0 b1 b2 b3 - 5) ->
  exists (e : error) (r' : Reader),
    Decode c r = (None, Some e, r') /\ ShortRead e = true.
Proof.
  intros Hfin [Hshort | (b0 & b1 & b2 & b3 & b4 & rest & Hd & Hsz & Hlen)].
  - destruct (Decode_header_short c r Hshort) as (k & Heq & _).
    do 2 eexists. split; [exact Heq |].
    unfold short_error. rewrite Hfin.
    destruct (0 <? len (data r)); reflexivity.
  - pose proof (le32_range b0 b1 b2 b3) as Hr.
    destruct (Decode_body_short c r _ _ _ _ _ _ Hd) as (k & Heq & _).
    { rewrite u32_small; unfold HeaderSize; lia. }
    do 2 eexists. split; [exact Heq |].
    rewrite Hfin. destruct (0 <? len rest); reflexivity.
Qed.

(** C7. A well-formed frame whose type id the registry rejects:
    [Decode] fails with the registry's error after it consumed the 5
    header bytes and all [total_size - 5] body bytes, so the reader is
    left at the first byte of the next frame. *)
Theorem Decode_unknown_type
        (r : Reader) (b0 b1 b2 b3 b4 : byte) (rest : list byte)
        (e : error) :
  data r = b0 :: b1 :: b2 :: b3 :: b4 :: rest ->
  5 <= le32 b0 b1 b2 b3 ->
  le32 b0 b1 b2 b3 - 5 <= len rest ->
  MT2M c b4 = Err e ->
  exists r' : Reader,
    Decode c r = (None, Some e, r')
    /\ data r' = skipn (Z.to_nat (le32 b0 b1 b2 b3 - 5)) rest
    /\ fin r' = fin r.
Proof.
  intros Hd Hsz Hlen Hreg.
  pose proof (le32_range b0 b1 b2 b3) as Hr.
  assert (Hn : u32 (le32 b0 b1 b2 b3 - HeaderSize) = le32 b0 b1 b2 b3 - 5).
  { rewrite u32_small; unfold HeaderSize; lia. }
  destruct (Decode_body_read c r _ _ _ _ _ _ Hd) as (k & Heq & _).
  { rewrite Hn. exact Hlen. }
  rewrite Hn in Heq. unfold resolve_and_fill in Heq. rewrite Hreg in Heq.
  eexists. split; [exact Heq |].
  rewrite advance_data, advance_fin, Hd, Nat.add_comm, <- skipn_skipn.
  split; reflexivity.
Qed.

(** C9. [Decode] is all-or-nothing: whatever the stream and the
    registry, it returns a message if and only if it returns no error. *)
Theorem Decode_all_or_nothing (r : Reader) :
  fst (fst (Decode c r)) <> None <-> snd (fst (Decode c r)) = None.
Proof.
  unfold Decode.
  destruct (DecodeHdr r) as [[[size mt] [e |]] r1]; cbn [fst snd];
    [split; congruence |].
  destruct (ReadFull r1 (u32 (size - HeaderSize))) as [[b [e |]] r2];
    cbn [fst snd]; [split; congruence |].
  destruct (negb (len b =? u32 (size - HeaderSize)));
    cbn [fst snd]; [split; congruence |].
  destruct (MT2M c mt) as [m | e]; cbn [fst snd]; [| split; congruence].
  destruct (UnmarshalBinary m b) as [m' | e]; cbn [fst snd];
    split; congruence.
Qed.

End DecodeContract.

Lemma Decode_short_stream_witness :
  (exists (e : error) (r' : Reader),
      Decode RawCodec (stream [Byte.x07; Byte.x00] 0) = (None, Some e, r')
      /\ ShortRead e = true)
  /\ (exists (e : error) (r' : Reader),
         Decode RawCodec
                (stream [Byte.x07; Byte.x00; Byte.x00; Byte.x00; Byte.x01;
                         Byte.xaa] 0)
         = (None, Some e, r')
         /\ ShortRead e = true).
Proof.
  split.
  - apply (Decode_short_stream RawCodec (stream [Byte.x07; Byte.x00] 0));
      [reflexivity | left; now vm_compute].
  - apply (Decode_short_stream RawCodec
             (stream [Byte.x07; Byte.x00; Byte.x00; Byte.x00; Byte.x01;
                      Byte.xaa] 0));
      [reflexivity |].
    right. do 6 eexists.
    split; [reflexivity | split; now vm_compute].
Defined.

Lemma Decode_unknown_type_witness :
  exists r' : Reader,
    Decode RawCodec
           (stream [Byte.x07; Byte.x00; Byte.x00; Byte.x00; Byte.x09;
                    Byte.xaa; Byte.xbb;
                    Byte.x05; Byte.x00; Byte.x00; Byte.x00; Byte.x01] 2)
    = (None, Some ErrUnknownMessageType, r')
    /\ data r'
       = skipn (Z.to_nat (le32 Byte.x07 Byte.x00 Byte.x00 Byte.x00 - 5))
               [Byte.xaa; Byte.xbb;
                Byte.x05; Byte.x00; Byte.x00; Byte.x00; Byte.x01]
    /\ fin r' = EOF.
Proof.
  apply (Decode_unknown_type RawCodec
           (stream [Byte.x07; Byte.x00; Byte.x00; Byte.x00; Byte.x09;
                    Byte.xaa; Byte.xbb;
                    Byte.x05; Byte.x00; Byte.x00; Byte.x00; Byte.x01] 2)
           Byte.x07 Byte.x00 Byte.x00 Byte.x00 Byte.x09
           [Byte.xaa; Byte.xbb;
            Byte.x05; Byte.x00; Byte.x00; Byte.x00; Byte.x01]
           ErrUnknownMessageType).
  - reflexivity.
  - now vm_compute.
  - now vm_compute.
  - reflexivity.
Defined.

(** ** Writing *)

(** On the writer that takes one byte per call, the loop of [write] is
    back at [written = 1] after every call: it sends the second byte of
    the slice again and again. *)
Lemma write_loop_one_byte_writer (x y : byte) (tl : list byte) (fuel : nat) :
  forall acc : list byte,
    write_loop fuel (mkChunkWriter acc 1) (x :: y :: tl) 1
    = (Timeout, mkChunkWriter (acc ++ repeat y fuel) 1).
Proof.
  induction fuel as [| fuel IH]; intros acc.
  - cbn. now rewrite app_nil_r.
  - cbn [write_loop length Nat.ltb Nat.leb skipn].
    unfold Write at 1, ChunkWriter_Writer.
    cbn [limit accepted length Nat.min firstn].
    rewrite IH, <- app_assoc. reflexivity.
Qed.

Lemma write_one_byte_writer (x y : byte) (tl : list byte) (fuel : nat) :
  write (S fuel) (mkChunkWriter [] 1) (x :: y :: tl)
  = (Timeout, mkChunkWriter (x :: repeat y fuel) 1).
Proof.
  unfold write. cbn [write_loop length Nat.ltb Nat.leb skipn].
  unfold Write at 1, ChunkWriter_Writer.
  cbn [limit accepted length Nat.min firstn app].
  apply (write_loop_one_byte_writer x y tl fuel [x]).
Qed.

(** C3. With the two-byte slice [01 02] and the writer that accepts
    exactly one byte per call and never fails, the loop of [write] does
    not terminate: whatever the number of calls allowed, it is still
    running, and the writer has received [01] followed by [02] once per
    further call. *)
Theorem write_partial_writer_never_returns (fuel : nat) :
  fst (write fuel (mkChunkWriter [] 1) [Byte.x01; Byte.x02]) = Timeout
  /\ write (S fuel) (mkChunkWriter [] 1) [Byte.x01; Byte.x02]
     = (Timeout, mkChunkWriter (Byte.x01 :: repeat Byte.x02 fuel) 1).
Proof.
  split; [| apply write_one_byte_writer].
  destruct fuel; [reflexivity |].
  now rewrite write_one_byte_writer.
Qed.

(** C2. With the writer that accepts one byte per call, [Encode] of the
    empty message of type 1 never returns, and what reaches the writer is
    not the frame [05 00 00 00 01]: after the first byte the writer
    receives the second header byte once per call. *)
Theorem Encode_partial_writer_never_returns (fuel : nat) :
  frame Byte.x01 [] = [Byte.x05; Byte.x00; Byte.x00; Byte.x00; Byte.x01]
  /\ fst (Encode fuel RawCodec (mkChunkWriter [] 1) (Raw Byte.x01 []))
     = Timeout
  /\ Encode (S fuel) RawCodec (mkChunkWriter [] 1) (Raw Byte.x01 [])
     = (Timeout, mkChunkWriter (Byte.x05 :: repeat Byte.x00 fuel) 1).
Proof.
  assert (Hrun : forall n,
             Encode (S n) RawCodec (mkChunkWriter [] 1) (Raw Byte.x01 [])
             = (Timeout, mkChunkWriter (Byte.x05 :: repeat Byte.x00 n) 1)).
  { intros n. unfold Encode.
    change (M2MT RawCodec (Raw Byte.x01 [])) with (@Ok MessageType Byte.x01).
    change (MarshalBinary (Raw Byte.x01 [])) with (@Ok (list byte) []).
    cbv iota beta zeta.
    replace (header Byte.x01 [])
      with [Byte.x05; Byte.x00; Byte.x00; Byte.x00; Byte.x01]
      by (vm_compute; reflexivity).
    now rewrite write_one_byte_writer. }
  split; [vm_compute; reflexivity |].
  split; [| apply Hrun].
  destruct fuel; [reflexivity |].
  now rewrite Hrun.
Qed.

(** ** Encoding *)

Section EncodeContract.
Context {M : Type} `{Message M}.
Variable c : Codec M.

(** C10. When the registry does not recognise the message, or the
    message fails to serialize, [Encode] returns that error and the
    writer it was given is returned untouched: no [Write] call was made,
    whatever the writer. *)
Theorem Encode_early_failure_writes_nothing
        {W : Type} `{Writer W} (fuel : nat) (w : W) (m : M) (e : error) :
  M2MT c m = Err e
  \/ (exists mt : MessageType, M2MT c m = Ok mt /\ MarshalBinary m = Err e) ->
  Encode fuel c w m = (Return (Some e), w).
Proof.
  intros [Hmt | (mt & Hmt & Hb)]; unfold Encode; rewrite Hmt;
    [| rewrite Hb]; reflexivity.
Qed.

(** C4, with the bound the header's size field imposes. For a message
    [m] that the registry maps to [mt], whose fresh instance [m0] for
    [mt] fills itself from [m]'s serialized body back to [m], and whose
    body together with the 5 header bytes fits in 32 bits: decoding
    what [Encode] wrote into a buffer yields [m], and the reader is left
    at whatever follows the frame. *)
Theorem Decode_Encode_roundtrip
        (fuel chunk : nat) (m m0 : M) (mt : MessageType)
        (b rest : list byte) (e : error) :
  M2MT c m = Ok mt ->
  MT2M c mt = Ok m0 ->
  MarshalBinary m = Ok b ->
  UnmarshalBinary m0 b = Ok m ->
  len b + HeaderSize < 2 ^ 32 ->
  exists (w : Buffer) (r' : Reader),
    Encode (S fuel) c (mkBuffer []) m = (Return None, w)
    /\ contents w = frame mt b
    /\ Decode c (mkReader (contents w ++ rest) e chunk 0)
       = (Some m, None, r')
    /\ data r' = rest.
Proof.
  intros Hmt Hm0 Hb Hback Hfit.
  pose proof (len_nonneg b) as Hnn.
  assert (Hn : u32 (len b) = len b)
    by (apply u32_small; unfold HeaderSize in Hfit; lia).
  destruct (Decode_frame c (mkReader (frame mt b ++ rest) e chunk 0)
              mt b rest eq_refl) as (k & Hdec).
  { rewrite Hn, len_app. pose proof (len_nonneg rest). lia. }
  rewrite Hn in Hdec. unfold len in Hdec. rewrite Nat2Z.id in Hdec.
  rewrite firstn_app, Nat.sub_diag, firstn_all, firstn_O, app_nil_r
    in Hdec.
  unfold resolve_and_fill in Hdec. rewrite Hm0, Hback in Hdec.
  exists (mkBuffer (frame mt b)). eexists.
  split; [apply (Encode_Buffer c fuel (mkBuffer []) m mt b Hmt Hb) |].
  split; [reflexivity |].
  split; [exact Hdec |].
  rewrite advance_data. cbn [data].
  unfold frame. rewrite <- app_assoc.
  change 5%nat with (length (header mt b)) at 1.
  rewrite Nat.add_comm, <- skipn_skipn, skipn_app, skipn_all, Nat.sub_diag.
  cbn [app skipn].
  rewrite skipn_app, skipn_all, Nat.sub_diag. reflexivity.
Qed.

(** C8. A message of type id 1 with an empty body encodes, into a
    buffer, to exactly [05 00 00 00 01]; and decoding those five bytes
    with nothing after them returns, without error, the type-1 instance
    of the registry filled from the empty body. *)
Theorem empty_body_scenario (fuel chunk : nat) (m m0 m1 : M) :
  M2MT c m = Ok Byte.x01 ->
  MarshalBinary m = Ok [] ->
  MT2M c Byte.x01 = Ok m0 ->
  UnmarshalBinary m0 [] = Ok m1 ->
  Encode (S fuel) c (mkBuffer []) m
  = (Return None,
     mkBuffer [Byte.x05; Byte.x00; Byte.x00; Byte.x00; Byte.x01])
  /\ exists r' : Reader,
       Decode c (stream [Byte.x05; Byte.x00; Byte.x00; Byte.x00; Byte.x01]
                        chunk)
       = (Some m1, None, r')
       /\ data r' = [].
Proof.
  intros Hmt Hb Hm0 Hfill. split.
  - rewrite (Encode_Buffer c fuel (mkBuffer []) m Byte.x01 [] Hmt Hb).
    reflexivity.
  - destruct (Decode_body_read c
                (stream [Byte.x05; Byte.x00; Byte.x00; Byte.x00; Byte.x01]
                        chunk)
                Byte.x05 Byte.x00 Byte.x00 Byte.x00 Byte.x01 [] eq_refl)
      as (k & Hdec & _); [now vm_compute |].
    change (Z.to_nat (u32 (le32 Byte.x05 Byte.x00 Byte.x00 Byte.x00
                           - HeaderSize))) with 0%nat in Hdec.
    cbn [firstn] in Hdec.
    unfold resolve_and_fill in Hdec. rewrite Hm0, Hfill in Hdec.
    eexists. split; [exact Hdec | reflexivity].
Qed.

End EncodeContract.

Lemma Encode_early_failure_writes_nothing_witness :
  Encode 3 RawCodec (mkChunkWriter [Byte.xee] 1) (Raw Byte.x09 [Byte.x01])
  = (Return (Some ErrUnknownMessageType), mkChunkWriter [Byte.xee] 1)
  /\ Encode 3 RawCodec (mkBuffer [Byte.xee]) (Raw Byte.x02 [])
     = (Return (Some ErrPayloadTooShort), mkBuffer [Byte.xee]).
Proof.
  split.
  - apply (Encode_early_failure_writes_nothing RawCodec 3
             (mkChunkWriter [Byte.xee] 1) (Raw Byte.x09 [Byte.x01])
             ErrUnknownMessageType).
    left. reflexivity.
  - apply (Encode_early_failure_writes_nothing RawCodec 3
             (mkBuffer [Byte.xee]) (Raw Byte.x02 []) ErrPayloadTooShort).
    right. exists Byte.x02. split; reflexivity.
Defined.

Lemma Decode_Encode_roundtrip_witness :
  exists (w : Buffer) (r' : Reader),
    Encode 1 RawCodec (mkBuffer []) (Raw Byte.x02 [Byte.x68; Byte.x69])
    = (Return None, w)
    /\ contents w = frame Byte.x02 [Byte.x68; Byte.x69]
    /\ Decode RawCodec (mkReader (contents w ++ [Byte.xff]) EOF 2 0)
       = (Some (Raw Byte.x02 [Byte.x68; Byte.x69]), None, r')
    /\ data r' = [Byte.xff].
Proof.
  apply (Decode_Encode_roundtrip RawCodec 0 2
           (Raw Byte.x02 [Byte.x68; Byte.x69]) (Raw Byte.x02 [])
           Byte.x02 [Byte.x68; Byte.x69] [Byte.xff] EOF).
  - reflexivity.
  - reflexivity.
  - reflexivity.
  - reflexivity.
  - now vm_compute.
Defined.

Lemma empty_body_scenario_witness :
  Encode 1 RawCodec (mkBuffer []) (Raw Byte.x01 [])
  = (Return None, mkBuffer [Byte.x05; Byte.x00; Byte.x00; Byte.x00; Byte.x01])
  /\ exists r' : Reader,
       Decode RawCodec
              (stream [Byte.x05; Byte.x00; Byte.x00; Byte.x00; Byte.x01] 0)
       = (Some (Raw Byte.x01 []), None, r')
       /\ data r' = [].
Proof.
  apply (empty_body_scenario RawCodec 0 0
           (Raw Byte.x01 []) (Raw Byte.x01 []) (Raw Byte.x01 []));
    reflexivity.
Defined.

(** ** A body too long for the size field *)

Lemma huge_body_len : len huge_body = 2 ^ 32.
Proof.
  unfold len, huge_body. rewrite repeat_length. apply Z2Nat.id. lia.
Qed.

(** What encoding and decoding do with a kind-1 message whose body has
    exactly 2^32 bytes: the size field holds [2^32 + 5] truncated to 32
    bits, which is 5, so the decoder reads an empty body. *)
Lemma roundtrip_body_of_2_32 (b : list byte) :
  len b = 2 ^ 32 ->
  M2MT RawCodec (Raw Byte.x01 b) = Ok Byte.x01
  /\ MT2M RawCodec Byte.x01 = Ok (Raw Byte.x01 [])
  /\ MarshalBinary (Raw Byte.x01 b) = Ok b
  /\ UnmarshalBinary (Raw Byte.x01 []) b = Ok (Raw Byte.x01 b)
  /\ Encode 1 RawCodec (mkBuffer []) (Raw Byte.x01 b)
     = (Return None, mkBuffer (frame Byte.x01 b))
  /\ fst (Decode RawCodec (stream (frame Byte.x01 b) 0))
     = (Some (Raw Byte.x01 []), None)
  /\ Raw Byte.x01 [] <> Raw Byte.x01 b.
Proof.
  intros Hlen.
  assert (Hmt : M2MT RawCodec (Raw Byte.x01 b) = Ok Byte.x01)
    by reflexivity.
  assert (Hb : MarshalBinary (Raw Byte.x01 b) = Ok b) by reflexivity.
  split; [exact Hmt |].
  split; [reflexivity |].
  split; [exact Hb |].
  split; [reflexivity |].
  split;
    [exact (Encode_Buffer RawCodec 0 (mkBuffer []) _ Byte.x01 b Hmt Hb) |].
  split.
  - destruct (Decode_frame RawCodec (stream (frame Byte.x01 b) 0)
                Byte.x01 b []) as (k & Hdec).
    + cbn [stream data]. now rewrite app_nil_r.
    + unfold u32. rewrite Hlen, Z.mod_same by lia. apply len_nonneg.
    + rewrite Hdec. cbn [fst].
      unfold u32. rewrite Hlen, Z.mod_same by lia.
      reflexivity.
  - intros Heq. injection Heq as Hnil. subst b.
    unfold len in Hlen. cbn [length] in Hlen. lia.
Qed.

(** C4 as stated, without a bound on the body, fails. The kind-1 message
    with a body of 2^32 zero bytes satisfies every premise (the registry
    maps it to type 1, the fresh type-1 instance fills itself from the body
    back to the message), [Encode] writes its frame into the buffer, and
    decoding that frame yields the kind-1 message with an empty body. *)
Lemma Decode_Encode_huge_body :
  M2MT RawCodec (Raw Byte.x01 huge_body) = Ok Byte.x01
  /\ MT2M RawCodec Byte.x01 = Ok (Raw Byte.x01 [])
  /\ MarshalBinary (Raw Byte.x01 huge_body) = Ok huge_body
  /\ UnmarshalBinary (Raw Byte.x01 []) huge_body = Ok (Raw Byte.x01 huge_body)
  /\ Encode 1 RawCodec (mkBuffer []) (Raw Byte.x01 huge_body)
     = (Return None, mkBuffer (frame Byte.x01 huge_body))
  /\ fst (Decode RawCodec (stream (frame Byte.x01 huge_body) 0))
     = (Some (Raw Byte.x01 []), None)
  /\ Raw Byte.x01 [] <> Raw Byte.x01 huge_body.
Proof. exact (roundtrip_body_of_2_32 huge_body huge_body_len). Qed.

(** * Further properties of the code *)

(** ** The loop of [write] *)

Section WriteLoop.
Context {W : Type} `{Writer W}.

(** The [io.Writer] contract on counts: a call never reports more bytes
    than it was handed. *)
Hypothesis Write_count :
  forall (w w' : W) (p : list byte) (n : nat) (err : option error),
    Write w p = (n, err, w') -> (n <= length p)%nat.

Lemma write_loop_returns_nil (fuel : nat) (b : list byte) (w' : W) :
  forall (w : W) (written : nat),
    (written < length b)%nat ->
    write_loop fuel w b written = (Return None, w') ->
    exists w0 : W, Write w0 b = (length b, None, w').
Proof.
  induction fuel as [| fuel IH]; intros w written Hlt Hrun.
  - cbn [write_loop] in Hrun.
    destruct (Nat.ltb_spec written (length b)); [discriminate | lia].
  - cbn [write_loop] in Hrun.
    destruct (Nat.ltb_spec written (length b)) as [_ | Hge]; [| lia].
    destruct (Write w (skipn written b)) as [[n err] w1] eqn:Hcall.
    destruct err as [e |]; [discriminate |].
    destruct (Nat.lt_ge_cases n (length b)) as [Hn | Hn].
    + exact (IH w1 n Hn Hrun).
    + pose proof (Write_count _ _ _ _ _ Hcall) as Hcount.
      rewrite length_skipn in Hcount.
      assert (written = 0%nat) by lia. subst written.
      assert (n = length b) by lia. subst n.
      cbn [skipn] in Hcall.
      assert (Hret : write_loop fuel w1 b (length b) = (Return None, w1)).
      { destruct fuel; cbn [write_loop]; rewrite Nat.ltb_irrefl;
          reflexivity. }
      rewrite Hret in Hrun. injection Hrun as <-.
      exists w. exact Hcall.
Qed.

(** X1. With a writer that keeps to the contract on counts, [write] of a
    non-empty slice returns [nil] only through a call that was handed the
    entire slice and accepted all of it: what earlier calls accepted is
    never added up. *)
Theorem write_nil_only_after_whole_slice
        (fuel : nat) (w w' : W) (b : list byte) :
  b <> [] ->
  write fuel w b = (Return None, w') ->
  exists w0 : W, Write w0 b = (length b, None, w').
Proof.
  intros Hb Hrun. unfold write in Hrun.
  apply (write_loop_returns_nil fuel b w' w 0); [| exact Hrun].
  destruct b; [congruence | cbn; lia].
Qed.

End WriteLoop.

Lemma Buffer_Write_count (w w' : Buffer) (p : list byte) (n : nat)
      (err : option error) :
  Write w p = (n, err, w') -> (n <= length p)%nat.
Proof.
  unfold Write, Buffer_Writer. intros Hcall.
  injection Hcall as <- _ _. apply le_n.
Defined.

Lemma write_nil_only_after_whole_slice_witness :
  exists w0 : Buffer,
    Write w0 [Byte.x01; Byte.x02; Byte.x03]
    = (length [Byte.x01; Byte.x02; Byte.x03], None,
       mkBuffer [Byte.xee; Byte.x01; Byte.x02; Byte.x03]).
Proof.
  apply (write_nil_only_after_whole_slice Buffer_Write_count
           1 (mkBuffer [Byte.xee]) _ [Byte.x01; Byte.x02; Byte.x03]).
  - discriminate.
  - reflexivity.
Defined.

Lemma write_loop_ChunkWriter_spins (lim : nat) (b : list byte) (fuel : nat) :
  (0 < lim < length b)%nat ->
  forall (acc : list byte) (written : nat),
    (written < length b)%nat ->
    fst (write_loop fuel (mkChunkWriter acc lim) b written) = Timeout.
Proof.
  intros Hlim. induction fuel as [| fuel IH]; intros acc written Hlt;
    cbn [write_loop];
    destruct (Nat.ltb_spec written (length b)) as [_ | Hge]; try lia.
  - reflexivity.
  - unfold Write at 1, ChunkWriter_Writer. cbn [limit accepted].
    apply IH. rewrite length_skipn. lia.
Qed.

(** X2. On a writer that accepts at most [lim] bytes per call and reports
    no error, [write] never returns when the slice is longer than
    [lim > 0]: whatever the bound on the number of calls, the loop is still
    running. *)
Theorem write_ChunkWriter_spins (lim : nat) (acc b : list byte) (fuel : nat) :
  (0 < lim < length b)%nat ->
  fst (write fuel (mkChunkWriter acc lim) b) = Timeout.
Proof.
  intros Hlim. apply write_loop_ChunkWriter_spins; lia.
Qed.

Lemma write_ChunkWriter_spins_witness :
  fst (write 50 (mkChunkWriter [] 2) [Byte.x0a; Byte.x0b; Byte.x0c])
  = Timeout.
Proof.
  apply (write_ChunkWriter_spins 2 [] [Byte.x0a; Byte.x0b; Byte.x0c] 50).
  cbn. lia.
Defined.

(** X3. On the same writer a slice that fits one call is delivered once,
    after what the writer already holds, and [write] returns [nil]. *)
Theorem write_ChunkWriter_fits (lim : nat) (acc b : list byte) (fuel : nat) :
  (length b <= lim)%nat ->
  write (S fuel) (mkChunkWriter acc lim) b
  = (Return None, mkChunkWriter (acc ++ b) lim).
Proof.
  intros Hlen. destruct b as [| x b].
  - now rewrite write_nil, app_nil_r.
  - apply write_whole with (n := length (x :: b));
      [discriminate | | lia].
    unfold Write, ChunkWriter_Writer. cbn [limit accepted].
    rewrite Nat.min_r by exact Hlen. now rewrite firstn_all.
Qed.

Lemma write_ChunkWriter_fits_witness :
  write 1 (mkChunkWriter [Byte.xee] 3) [Byte.x0a; Byte.x0b; Byte.x0c]
  = (Return None,
     mkChunkWriter ([Byte.xee] ++ [Byte.x0a; Byte.x0b; Byte.x0c]) 3).
Proof.
  apply (write_ChunkWriter_fits 3 [Byte.xee]
           [Byte.x0a; Byte.x0b; Byte.x0c] 0).
  cbn. lia.
Defined.

(** ** [Encode] and the writer *)

Section EncodeWriters.
Context {M W : Type} `{Message M} `{Writer W}.
Variable c : Codec M.

(** X4. When the writer reports an error for the header, [Encode] returns
    that error, unchanged, after this one call: the body is never handed
    to the writer. *)
Theorem Encode_header_write_error
        (fuel : nat) (w w1 : W) (m : M) (mt : MessageType) (b : list byte)
        (n : nat) (e : error) :
  M2MT c m = Ok mt ->
  MarshalBinary m = Ok b ->
  Write w (header mt b) = (n, Some e, w1) ->
  Encode (S fuel) c w m = (Return (Some e), w1).
Proof.
  intros Hmt Hb Hcall. unfold Encode. rewrite Hmt, Hb.
  rewrite (write_error fuel w w1 (header mt b) n e);
    [reflexivity | discriminate | exact Hcall].
Qed.

(** X5. When the writer takes the whole header and then reports an error
    for the body, [Encode] returns that error, unchanged; the header has
    already been delivered and stays with the writer. *)
Theorem Encode_body_write_error
        (fuel : nat) (w w1 w2 : W) (m : M) (mt : MessageType)
        (b : list byte) (n1 n2 : nat) (e : error) :
  M2MT c m = Ok mt ->
  MarshalBinary m = Ok b ->
  Write w (header mt b) = (n1, None, w1) ->
  (5 <= n1)%nat ->
  b <> [] ->
  Write w1 b = (n2, Some e, w2) ->
  Encode (S fuel) c w m = (Return (Some e), w2).
Proof.
  intros Hmt Hb Hcall1 Hn1 Hne Hcall2. unfold Encode. rewrite Hmt, Hb.
  rewrite (write_whole fuel w w1 (header mt b) n1);
    [| discriminate | exact Hcall1 | exact Hn1].
  rewrite (write_error fuel w1 w2 b n2 e Hne Hcall2). reflexivity.
Qed.

(** X6. With a writer that accepts every slice whole, the frame reaches
    it as two calls, the 5-byte header first and then the body; for an
    empty body [Encode] makes the header call only. *)
Theorem Encode_two_calls
        (fuel : nat) (w w1 w2 : W) (m : M) (mt : MessageType)
        (b : list byte) (n1 n2 : nat) :
  M2MT c m = Ok mt ->
  MarshalBinary m = Ok b ->
  Write w (header mt b) = (n1, None, w1) ->
  (5 <= n1)%nat ->
  (b = [] /\ w2 = w1)
  \/ (b <> [] /\ Write w1 b = (n2, None, w2) /\ (length b <= n2)%nat) ->
  Encode (S fuel) c w m = (Return None, w2).
Proof.
  intros Hmt Hb Hcall1 Hn1 Hbody. unfold Encode. rewrite Hmt, Hb.
  rewrite (write_whole fuel w w1 (header mt b) n1);
    [| discriminate | exact Hcall1 | exact Hn1].
  destruct Hbody as [[-> ->] | (Hne & Hcall2 & Hn2)].
  - now rewrite write_nil.
  - now rewrite (write_whole fuel w1 w2 b n2 Hne Hcall2 Hn2).
Qed.

End EncodeWriters.

Lemma Encode_header_write_error_witness :
  Encode 1 RawCodec (mkLimitedWriter [Byte.xee] 3)
         (Raw Byte.x01 [Byte.x68; Byte.x69])
  = (Return (Some ErrShortWrite),
     mkLimitedWriter [Byte.xee; Byte.x07; Byte.x00; Byte.x00] 0).
Proof.
  apply (Encode_header_write_error RawCodec 0
           (mkLimitedWriter [Byte.xee] 3) _
           (Raw Byte.x01 [Byte.x68; Byte.x69]) Byte.x01
           [Byte.x68; Byte.x69] 3 ErrShortWrite);
    reflexivity.
Defined.

Lemma Encode_body_write_error_witness :
  Encode 1 RawCodec (mkLimitedWriter [] 6)
         (Raw Byte.x01 [Byte.x68; Byte.x69])
  = (Return (Some ErrShortWrite),
     mkLimitedWriter [Byte.x07; Byte.x00; Byte.x00; Byte.x00; Byte.x01;
                      Byte.x68] 0).
Proof.
  apply (Encode_body_write_error RawCodec 0
           (mkLimitedWriter [] 6)
           (mkLimitedWriter [Byte.x07; Byte.x00; Byte.x00; Byte.x00;
                             Byte.x01] 1)
           _ (Raw Byte.x01 [Byte.x68; Byte.x69]) Byte.x01
           [Byte.x68; Byte.x69] 5 1 ErrShortWrite).
  - reflexivity.
  - reflexivity.
  - reflexivity.
  - apply le_n.
  - discriminate.
  - reflexivity.
Defined.

Lemma Encode_two_calls_witness :
  Encode 1 RawCodec (mkLimitedWriter [] 9)
         (Raw Byte.x01 [Byte.x68; Byte.x69])
  = (Return None,
     mkLimitedWriter [Byte.x07; Byte.x00; Byte.x00; Byte.x00; Byte.x01;
                      Byte.x68; Byte.x69] 2)
  /\ Encode 1 RawCodec (mkLimitedWriter [] 9) (Raw Byte.x01 [])
     = (Return None,
        mkLimitedWriter [Byte.x05; Byte.x00; Byte.x00; Byte.x00; Byte.x01]
                        4).
Proof.
  split.
  - apply (Encode_two_calls RawCodec 0
             (mkLimitedWriter [] 9)
             (mkLimitedWriter [Byte.x07; Byte.x00; Byte.x00; Byte.x00;
                               Byte.x01] 4)
             _ (Raw Byte.x01 [Byte.x68; Byte.x69]) Byte.x01
             [Byte.x68; Byte.x69] 5 2);
      [reflexivity | reflexivity | reflexivity | apply le_n |].
    right. split; [discriminate | split; [reflexivity | apply le_n]].
  - apply (Encode_two_calls RawCodec 0
             (mkLimitedWriter [] 9)
             (mkLimitedWriter [Byte.x05; Byte.x00; Byte.x00; Byte.x00;
                               Byte.x01] 4)
             _ (Raw Byte.x01 []) Byte.x01 [] 5 0);
      [reflexivity | reflexivity | reflexivity | apply le_n |].
    left. split; reflexivity.
Defined.

(** X7. Into a writer with room for [room] more bytes, [Encode] delivers
    the whole frame when it fits; when it does not, it returns
    [io.ErrShortWrite] and the writer holds the first [room] bytes of the
    frame. *)
Theorem Encode_LimitedWriter
        {M : Type} `{Message M} (c : Codec M)
        (fuel : nat) (st : list byte) (rm : nat) (m : M)
        (mt : MessageType) (b : list byte) :
  M2MT c m = Ok mt ->
  MarshalBinary m = Ok b ->
  Encode (S fuel) c (mkLimitedWriter st rm) m
  = if (length (frame mt b) <=? rm)%nat then
      (Return None,
       mkLimitedWriter (st ++ frame mt b) (rm - length (frame mt b)))
    else
      (Return (Some ErrShortWrite),
       mkLimitedWriter (st ++ firstn rm (frame mt b)) 0).
Proof.
  intros Hmt Hb.
  assert (Hflen : length (frame mt b) = (5 + length b)%nat)
    by (unfold frame; now rewrite length_app).
  assert (Hhlen : length (header mt b) = 5%nat) by reflexivity.
  rewrite Hflen. unfold Encode. rewrite Hmt, Hb.
  destruct (Nat.le_gt_cases 5 rm) as [Hroom | Hroom].
  - (* the header fits *)
    rewrite (write_whole fuel _
               (mkLimitedWriter (st ++ header mt b) (rm - 5))
               (header mt b) 5);
      [| discriminate | | apply le_n].
    2:{ unfold Write, LimitedWriter_Writer. cbn [stored room]. rewrite Hhlen.
        destruct (Nat.leb_spec 5 rm); [reflexivity | lia]. }
    destruct (list_eq_dec Byte.byte_eq_dec b []) as [-> | Hne].
    + rewrite write_nil. cbn [length Nat.add].
      destruct (Nat.leb_spec 5 rm); [| lia].
      unfold frame. now rewrite app_nil_r.
    + destruct (Nat.le_gt_cases (5 + length b) rm) as [Hfit | Hover].
      * rewrite (write_whole fuel _
                   (mkLimitedWriter ((st ++ header mt b) ++ b)
                                    (rm - 5 - length b))
                   b (length b) Hne);
          [| | apply le_n].
        -- destruct (Nat.leb_spec (5 + length b) rm); [| lia].
           unfold frame. rewrite <- app_assoc.
           now replace (rm - 5 - length b)%nat
             with (rm - (5 + length b))%nat by lia.
        -- unfold Write, LimitedWriter_Writer. cbn [stored room].
           destruct (Nat.leb_spec (length b) (rm - 5)); [reflexivity | lia].
      * rewrite (write_error fuel _
                   (mkLimitedWriter
                      ((st ++ header mt b) ++ firstn (rm - 5) b) 0)
                   b (rm - 5) ErrShortWrite Hne).
        -- destruct (Nat.leb_spec (5 + length b) rm); [lia |].
           unfold frame.
           rewrite firstn_app, Hhlen.
           rewrite (firstn_all2 (n := rm) (header mt b)) by (rewrite Hhlen; lia).
           now rewrite <- app_assoc.
        -- unfold Write, LimitedWriter_Writer. cbn [stored room].
           destruct (Nat.leb_spec (length b) (rm - 5)); [lia | reflexivity].
  - (* the header does not fit *)
    rewrite (write_error fuel _
               (mkLimitedWriter (st ++ firstn rm (header mt b)) 0)
               (header mt b) rm ErrShortWrite);
      [| discriminate |].
    + destruct (Nat.leb_spec (5 + length b) rm); [lia |].
      unfold frame. rewrite firstn_app, Hhlen.
      replace (rm - 5)%nat with 0%nat by lia.
      cbn [firstn]. now rewrite app_nil_r.
    + unfold Write, LimitedWriter_Writer. cbn [stored room]. rewrite Hhlen.
      destruct (Nat.leb_spec 5 rm); [lia | reflexivity].
Qed.

Lemma Encode_LimitedWriter_witness :
  Encode 1 RawCodec (mkLimitedWriter [Byte.xee] 6)
         (Raw Byte.x02 [Byte.x68; Byte.x69])
  = if (length (frame Byte.x02 [Byte.x68; Byte.x69]) <=? 6)%nat then
      (Return None,
       mkLimitedWriter ([Byte.xee] ++ frame Byte.x02 [Byte.x68; Byte.x69])
                       (6 - length (frame Byte.x02 [Byte.x68; Byte.x69])))
    else
      (Return (Some ErrShortWrite),
       mkLimitedWriter
         ([Byte.xee] ++ firstn 6 (frame Byte.x02 [Byte.x68; Byte.x69])) 0).
Proof.
  apply (Encode_LimitedWriter RawCodec 0 [Byte.xee] 6
           (Raw Byte.x02 [Byte.x68; Byte.x69]) Byte.x02
           [Byte.x68; Byte.x69]);
    reflexivity.
Defined.

(** ** [DecodeHdr] and [Decode] on arbitrary streams *)

Lemma error_eqb_EOF (e : error) : error_eqb e EOF = true -> e = EOF.
Proof. destruct e; cbn; congruence. Qed.

Lemma u32_idem (z : Z) : u32 (u32 z) = u32 z.
Proof. unfold u32. apply Z.mod_mod. lia. Qed.

(** A stream is either shorter than a header or starts with five bytes. *)
Lemma stream_cases (l : list byte) :
  len l < 5
  \/ exists (b0 b1 b2 b3 b4 : byte) (rest : list byte),
       l = b0 :: b1 :: b2 :: b3 :: b4 :: rest.
Proof.
  destruct l as [| b0 [| b1 [| b2 [| b3 [| b4 rest]]]]];
    try (left; unfold len; cbn [length]; lia).
  right. now exists b0, b1, b2, b3, b4, rest.
Qed.

(** X8. From a stream that gives out before five bytes, [DecodeHdr]
    returns size 0 and type 0 together with the read error: the stream's
    own error when nothing at all was read or when that error is not
    [io.EOF], and [io.ErrUnexpectedEOF] when the stream ended with [io.EOF]
    after one to four bytes. The bytes that were there are consumed. *)
Theorem DecodeHdr_short_header (r : Reader) :
  len (data r) < 5 ->
  exists r' : Reader,
    DecodeHdr r
    = (0, Byte.x00,
       Some (if (0 <? len (data r)) && error_eqb (fin r) EOF
             then ErrUnexpectedEOF else fin r),
       r')
    /\ data r' = []
    /\ fin r' = fin r.
Proof.
  intros Hshort.
  destruct (DecodeHdr_short r Hshort) as (k & Heq & _).
  eexists. split; [exact Heq |].
  rewrite advance_data, advance_fin, skipn_all. split; reflexivity.
Qed.

Lemma DecodeHdr_short_header_witness :
  exists r' : Reader,
    DecodeHdr (mkReader [Byte.x07; Byte.x00] (ErrNew "connection reset") 0 0)
    = (0, Byte.x00,
       Some (if (0 <? len [Byte.x07; Byte.x00])
                && error_eqb (ErrNew "connection reset") EOF
             then ErrUnexpectedEOF else ErrNew "connection reset"),
       r')
    /\ data r' = []
    /\ fin r' = ErrNew "connection reset".
Proof.
  apply (DecodeHdr_short_header
           (mkReader [Byte.x07; Byte.x00] (ErrNew "connection reset") 0 0)).
  now vm_compute.
Defined.

(** X9. On a stream that starts with the frame [Encode] lays out for a
    body [b] of type [mt], [DecodeHdr] returns the type [mt] and the size
    [len b + 5] truncated to 32 bits, and leaves the reader at the body. *)
Theorem DecodeHdr_of_header
        (r : Reader) (mt : MessageType) (b rest : list byte) :
  data r = frame mt b ++ rest ->
  exists r' : Reader,
    DecodeHdr r = (u32 (len b + HeaderSize), mt, None, r')
    /\ data r' = b ++ rest.
Proof.
  intros Hdata.
  pose proof (Uint32_PutUint32 (u32 (len b + HeaderSize)) []) as Hu.
  unfold frame, header, PutUint32 in Hdata. cbn [app] in Hdata.
  unfold PutUint32 in Hu. cbn [app] in Hu.
  rewrite Uint32_le32 in Hu.
  destruct (DecodeHdr_ok r _ _ _ _ _ _ Hdata) as (k & Heq & _).
  rewrite Hu, u32_idem in Heq.
  eexists. split; [exact Heq |].
  rewrite advance_data, Hdata. reflexivity.
Qed.

Lemma DecodeHdr_of_header_witness :
  exists r' : Reader,
    DecodeHdr (stream (frame Byte.x64 [Byte.x68; Byte.x69] ++ [Byte.xff]) 1)
    = (u32 (len [Byte.x68; Byte.x69] + HeaderSize), Byte.x64, None, r')
    /\ data r' = [Byte.x68; Byte.x69] ++ [Byte.xff].
Proof.
  apply (DecodeHdr_of_header
           (stream (frame Byte.x64 [Byte.x68; Byte.x69] ++ [Byte.xff]) 1)
           Byte.x64 [Byte.x68; Byte.x69] [Byte.xff]).
  reflexivity.
Defined.

Section DecodeStreams.
Context {M : Type} `{Message M}.
Variable c : Codec M.

(** X10. A well-formed frame of a type the registry knows, whose body the
    fresh instance accepts: [Decode] returns the instance filled from
    exactly the [total_size - 5] bytes that follow the header, with no
    error, and leaves the reader at the first byte after the frame. *)
Theorem Decode_success
        (r : Reader) (b0 b1 b2 b3 b4 : byte) (rest : list byte)
        (m0 m : M) :
  data r = b0 :: b1 :: b2 :: b3 :: b4 :: rest ->
  5 <= le32 b0 b1 b2 b3 ->
  le32 b0 b1 b2 b3 - 5 <= len rest ->
  MT2M c b4 = Ok m0 ->
  UnmarshalBinary m0 (firstn (Z.to_nat (le32 b0 b1 b2 b3 - 5)) rest)
  = Ok m ->
  exists r' : Reader,
    Decode c r = (Some m, None, r')
    /\ data r' = skipn (Z.to_nat (le32 b0 b1 b2 b3 - 5)) rest
    /\ fin r' = fin r.
Proof.
  intros Hd Hsz Hlen Hreg Hfill.
  pose proof (le32_range b0 b1 b2 b3) as Hr.
  assert (Hn : u32 (le32 b0 b1 b2 b3 - HeaderSize) = le32 b0 b1 b2 b3 - 5).
  { rewrite u32_small; unfold HeaderSize; lia. }
  destruct (Decode_body_read c r _ _ _ _ _ _ Hd) as (k & Heq & _).
  { rewrite Hn. exact Hlen. }
  rewrite Hn in Heq. unfold resolve_and_fill in Heq.
  rewrite Hreg, Hfill in Heq.
  eexists. split; [exact Heq |].
  rewrite advance_data, advance_fin, Hd, Nat.add_comm, <- skipn_skipn.
  split; reflexivity.
Qed.

(** X11. A well-formed frame whose body the message refuses: [Decode]
    returns the error of [UnmarshalBinary], unchanged, and no message; the
    whole frame has been consumed, so the reader is at the next frame. *)
Theorem Decode_unmarshal_error
        (r : Reader) (b0 b1 b2 b3 b4 : byte) (rest : list byte)
        (m0 : M) (e : error) :
  data r = b0 :: b1 :: b2 :: b3 :: b4 :: rest ->
  5 <= le32 b0 b1 b2 b3 ->
  le32 b0 b1 b2 b3 - 5 <= len rest ->
  MT2M c b4 = Ok m0 ->
  UnmarshalBinary m0 (firstn (Z.to_nat (le32 b0 b1 b2 b3 - 5)) rest)
  = Err e ->
  exists r' : Reader,
    Decode c r = (None, Some e, r')
    /\ data r' = skipn (Z.to_nat (le32 b0 b1 b2 b3 - 5)) rest
    /\ fin r' = fin r.
Proof.
  intros Hd Hsz Hlen Hreg Hfill.
  pose proof (le32_range b0 b1 b2 b3) as Hr.
  assert (Hn : u32 (le32 b0 b1 b2 b3 - HeaderSize) = le32 b0 b1 b2 b3 - 5).
  { rewrite u32_small; unfold HeaderSize; lia. }
  destruct (Decode_body_read c r _ _ _ _ _ _ Hd) as (k & Heq & _).
  { rewrite Hn. exact Hlen. }
  rewrite Hn in Heq. unfold resolve_and_fill in Heq.
  rewrite Hreg, Hfill in Heq.
  eexists. split; [exact Heq |].
  rewrite advance_data, advance_fin, Hd, Nat.add_comm, <- skipn_skipn.
  split; reflexivity.
Qed.

(** X12. A frame with an empty body ([total_size = 5]): after the header
    [Decode] makes no further [Read] call; the reader it returns is the
    one [DecodeHdr] left, and the result is the registry's instance filled
    from the empty body (or the error met on the way). *)
Theorem Decode_empty_body_no_read
        (r : Reader) (b0 b1 b2 b3 b4 : byte) (rest : list byte) :
  data r = b0 :: b1 :: b2 :: b3 :: b4 :: rest ->
  le32 b0 b1 b2 b3 = 5 ->
  Decode c r = (resolve_and_fill c b4 [], snd (DecodeHdr r)).
Proof.
  intros Hd Hsz. unfold Decode.
  destruct (DecodeHdr_ok r _ _ _ _ _ _ Hd) as (k1 & Heq1 & _).
  rewrite Heq1, Hsz. cbn [snd].
  change (u32 (5 - HeaderSize)) with 0.
  destruct (ReadFull_enough (advance r 5 k1) 0 (len_nonneg _))
    as (k2 & Heq2 & Hk2 & _).
  rewrite Heq2, (Hk2 (Z.le_refl 0)).
  change (Z.to_nat 0) with 0%nat. cbn [firstn]. rewrite advance_0.
  change (negb (len (@nil byte) =? 0)) with false. cbv iota.
  unfold resolve_and_fill.
  destruct (MT2M c b4) as [m | e]; [| reflexivity].
  destruct (UnmarshalBinary m []); reflexivity.
Qed.

(** X13. What [Decode] returns does not depend on how the reader cuts the
    stream into [Read] results: two readers over the same bytes with the
    same terminal error give the same message, the same error, and are
    left with the same unread bytes. *)
Theorem Decode_chunk_independent (r1 r2 : Reader) :
  data r1 = data r2 ->
  fin r1 = fin r2 ->
  fst (Decode c r1) = fst (Decode c r2)
  /\ data (snd (Decode c r1)) = data (snd (Decode c r2)).
Proof.
  intros Hdata Hfin.
  destruct (stream_cases (data r1))
    as [Hshort | (b0 & b1 & b2 & b3 & b4 & rest & Hd1)].
  - destruct (Decode_header_short c r1 Hshort) as (k1 & Heq1 & _).
    assert (Hshort2 : len (data r2) < 5) by (rewrite <- Hdata; exact Hshort).
    destruct (Decode_header_short c r2 Hshort2) as (k2 & Heq2 & _).
    rewrite Heq1, Heq2. cbn [fst snd]. rewrite !advance_data.
    unfold short_error. rewrite Hdata, Hfin. split; reflexivity.
  - assert (Hd2 : data r2 = b0 :: b1 :: b2 :: b3 :: b4 :: rest)
      by (rewrite <- Hdata; exact Hd1).
    destruct (Z.le_gt_cases (u32 (le32 b0 b1 b2 b3 - HeaderSize)) (len rest))
      as [Hfit | Hover].
    + destruct (Decode_body_read c r1 _ _ _ _ _ _ Hd1 Hfit) as (k1 & Heq1 & _).
      destruct (Decode_body_read c r2 _ _ _ _ _ _ Hd2 Hfit) as (k2 & Heq2 & _).
      rewrite Heq1, Heq2. cbn [fst snd]. rewrite !advance_data, Hdata.
      split; reflexivity.
    + destruct (Decode_body_short c r1 _ _ _ _ _ _ Hd1 Hover)
        as (k1 & Heq1 & _).
      destruct (Decode_body_short c r2 _ _ _ _ _ _ Hd2 Hover)
        as (k2 & Heq2 & _).
      rewrite Heq1, Heq2. cbn [fst snd]. rewrite !advance_data, Hdata, Hfin.
      split; reflexivity.
Qed.

(** X14. [Decode] invents no error of its own. An error it returns is the
    stream's terminal error, or [io.ErrUnexpectedEOF] for a stream that
    ended with [io.EOF] inside a frame, or an error of the registry's
    [MT2M], or an error of a message's [UnmarshalBinary]. In particular the
    "short read" error of its source text is never produced. *)
Theorem Decode_error_origin (r : Reader) (e : error) :
  snd (fst (Decode c r)) = Some e ->
  e = fin r
  \/ (e = ErrUnexpectedEOF /\ fin r = EOF)
  \/ (exists mt : MessageType, MT2M c mt = Err e)
  \/ (exists (m : M) (b : list byte), UnmarshalBinary m b = Err e).
Proof.
  destruct (stream_cases (data r))
    as [Hshort | (b0 & b1 & b2 & b3 & b4 & rest & Hd)].
  - destruct (Decode_header_short c r Hshort) as (k & Heq & _).
    rewrite Heq. cbn [fst snd]. unfold short_error. intros [= <-].
    destruct (0 <? len (data r)); cbn [andb]; [| now left].
    destruct (error_eqb (fin r) EOF) eqn:Eeof; [| now left].
    right. left. split; [reflexivity | now apply error_eqb_EOF].
  - destruct (Z.le_gt_cases (u32 (le32 b0 b1 b2 b3 - HeaderSize)) (len rest))
      as [Hfit | Hover].
    + destruct (Decode_body_read c r _ _ _ _ _ _ Hd Hfit) as (k & Heq & _).
      rewrite Heq. cbn [fst snd]. unfold resolve_and_fill.
      destruct (MT2M c b4) as [m | e'] eqn:Ereg.
      * destruct (UnmarshalBinary m _) as [m' | e'] eqn:Efill;
          cbn [snd]; intros [= <-].
        right. right. right. now exists m, (firstn
          (Z.to_nat (u32 (le32 b0 b1 b2 b3 - HeaderSize))) rest).
      * cbn [snd]. intros [= <-]. right. right. left. now exists b4.
    + destruct (Decode_body_short c r _ _ _ _ _ _ Hd Hover) as (k & Heq & _).
      rewrite Heq. cbn [fst snd]. intros [= <-].
      destruct (0 <? len rest); cbn [andb]; [| now left].
      destruct (error_eqb (fin r) EOF) eqn:Eeof; [| now left].
      right. left. split; [reflexivity | now apply error_eqb_EOF].
Qed.

(** X15. On a stream that ends with [io.EOF], [Decode] returns plain
    [io.EOF] both when the stream is empty and when it ends right after a
    header that announces a non-empty body: a frame cut off at that point
    looks to the caller like a clean end of stream. *)
Theorem Decode_plain_EOF (r : Reader) :
  fin r = EOF ->
  data r = []
  \/ (exists b0 b1 b2 b3 b4 : byte,
        data r = [b0; b1; b2; b3; b4]
        /\ 0 < u32 (le32 b0 b1 b2 b3 - HeaderSize)) ->
  exists r' : Reader, Decode c r = (None, Some EOF, r').
Proof.
  intros Hfin [Hnil | (b0 & b1 & b2 & b3 & b4 & Hd & Hpos)].
  - destruct (Decode_header_short c r) as (k & Heq & _).
    { rewrite Hnil. now vm_compute. }
    rewrite Heq. unfold short_error. rewrite Hnil, Hfin.
    eexists. reflexivity.
  - destruct (Decode_body_short c r _ _ _ _ _ _ Hd Hpos) as (k & Heq & _).
    rewrite Heq, Hfin. eexists. reflexivity.
Qed.

End DecodeStreams.

Lemma Decode_success_witness :
  exists r' : Reader,
    Decode RawCodec
           (stream [Byte.x07; Byte.x00; Byte.x00; Byte.x00; Byte.x02;
                    Byte.x68; Byte.x69; Byte.xff] 0)
    = (Some (Raw Byte.x02 [Byte.x68; Byte.x69]), None, r')
    /\ data r'
       = skipn (Z.to_nat (le32 Byte.x07 Byte.x00 Byte.x00 Byte.x00 - 5))
               [Byte.x68; Byte.x69; Byte.xff]
    /\ fin r' = EOF.
Proof.
  apply (Decode_success RawCodec
           (stream [Byte.x07; Byte.x00; Byte.x00; Byte.x00; Byte.x02;
                    Byte.x68; Byte.x69; Byte.xff] 0)
           Byte.x07 Byte.x00 Byte.x00 Byte.x00 Byte.x02
           [Byte.x68; Byte.x69; Byte.xff]
           (Raw Byte.x02 []) (Raw Byte.x02 [Byte.x68; Byte.x69])).
  - reflexivity.
  - now vm_compute.
  - now vm_compute.
  - reflexivity.
  - reflexivity.
Defined.

Lemma Decode_unmarshal_error_witness :
  exists r' : Reader,
    Decode RawCodec
           (stream [Byte.x05; Byte.x00; Byte.x00; Byte.x00; Byte.x02;
                    Byte.x06; Byte.x00; Byte.x00; Byte.x00; Byte.x01;
                    Byte.x68] 1)
    = (None, Some ErrPayloadTooShort, r')
    /\ data r'
       = skipn (Z.to_nat (le32 Byte.x05 Byte.x00 Byte.x00 Byte.x00 - 5))
               [Byte.x06; Byte.x00; Byte.x00; Byte.x00; Byte.x01; Byte.x68]
    /\ fin r' = EOF.
Proof.
  apply (Decode_unmarshal_error RawCodec
           (stream [Byte.x05; Byte.x00; Byte.x00; Byte.x00; Byte.x02;
                    Byte.x06; Byte.x00; Byte.x00; Byte.x00; Byte.x01;
                    Byte.x68] 1)
           Byte.x05 Byte.x00 Byte.x00 Byte.x00 Byte.x02
           [Byte.x06; Byte.x00; Byte.x00; Byte.x00; Byte.x01; Byte.x68]
           (Raw Byte.x02 []) ErrPayloadTooShort).
  - reflexivity.
  - now vm_compute.
  - now vm_compute.
  - reflexivity.
  - reflexivity.
Defined.

Lemma Decode_empty_body_no_read_witness :
  Decode RawCodec
         (stream [Byte.x05; Byte.x00; Byte.x00; Byte.x00; Byte.x01;
                  Byte.x68] 1)
  = (resolve_and_fill RawCodec Byte.x01 [],
     snd (DecodeHdr (stream [Byte.x05; Byte.x00; Byte.x00; Byte.x00;
                             Byte.x01; Byte.x68] 1))).
Proof.
  apply (Decode_empty_body_no_read RawCodec
           (stream [Byte.x05; Byte.x00; Byte.x00; Byte.x00; Byte.x01;
                    Byte.x68] 1)
           Byte.x05 Byte.x00 Byte.x00 Byte.x00 Byte.x01 [Byte.x68]);
    reflexivity.
Defined.

Lemma Decode_chunk_independent_witness :
  fst (Decode RawCodec
              (mkReader [Byte.x07; Byte.x00; Byte.x00; Byte.x00; Byte.x01;
                         Byte.x68; Byte.x69; Byte.xff] EOF 0 0))
  = fst (Decode RawCodec
                (mkReader [Byte.x07; Byte.x00; Byte.x00; Byte.x00; Byte.x01;
                           Byte.x68; Byte.x69; Byte.xff] EOF 3 9))
  /\ data (snd (Decode RawCodec
                  (mkReader [Byte.x07; Byte.x00; Byte.x00; Byte.x00;
                             Byte.x01; Byte.x68; Byte.x69; Byte.xff]
                            EOF 0 0)))
     = data (snd (Decode RawCodec
                    (mkReader [Byte.x07; Byte.x00; Byte.x00; Byte.x00;
                               Byte.x01; Byte.x68; Byte.x69; Byte.xff]
                              EOF 3 9))).
Proof.
  apply (Decode_chunk_independent RawCodec
           (mkReader [Byte.x07; Byte.x00; Byte.x00; Byte.x00; Byte.x01;
                      Byte.x68; Byte.x69; Byte.xff] EOF 0 0)
           (mkReader [Byte.x07; Byte.x00; Byte.x00; Byte.x00; Byte.x01;
                      Byte.x68; Byte.x69; Byte.xff] EOF 3 9));
    reflexivity.
Defined.

Lemma Decode_error_origin_witness :
  ErrUnknownMessageType = EOF
  \/ (ErrUnknownMessageType = ErrUnexpectedEOF /\ EOF = EOF)
  \/ (exists mt : MessageType, MT2M RawCodec mt = Err ErrUnknownMessageType)
  \/ (exists (m : RawMsg) (b : list byte),
         UnmarshalBinary m b = Err ErrUnknownMessageType).
Proof.
  apply (Decode_error_origin RawCodec
           (stream [Byte.x06; Byte.x00; Byte.x00; Byte.x00; Byte.x09;
                    Byte.x68] 0)
           ErrUnknownMessageType).
  reflexivity.
Defined.

Lemma Decode_plain_EOF_witness :
  (exists r' : Reader, Decode RawCodec (stream [] 0) = (None, Some EOF, r'))
  /\ (exists r' : Reader,
         Decode RawCodec
                (stream [Byte.x07; Byte.x00; Byte.x00; Byte.x00; Byte.x01] 0)
         = (None, Some EOF, r')).
Proof.
  split.
  - apply (Decode_plain_EOF RawCodec (stream [] 0));
      [reflexivity | left; reflexivity].
  - apply (Decode_plain_EOF RawCodec
             (stream [Byte.x07; Byte.x00; Byte.x00; Byte.x00; Byte.x01] 0));
      [reflexivity |].
    right. exists Byte.x07, Byte.x00, Byte.x00, Byte.x00, Byte.x01.
    split; [reflexivity | now vm_compute].
Defined.

(** ** Encoding followed by decoding *)

Section Frames.
Context {M : Type} `{Message M}.
Variable c : Codec M.

(** Decoding a stream that starts with the frame of a body whose length
    survives the truncation to 32 bits. *)
Lemma Decode_frame_exact
      (r : Reader) (mt : MessageType) (b rest : list byte) :
  len b < 2 ^ 32 ->
  data r = frame mt b ++ rest ->
  exists r' : Reader,
    Decode c r = (resolve_and_fill c mt b, r')
    /\ data r' = rest
    /\ fin r' = fin r.
Proof.
  intros Hfit Hdata.
  pose proof (len_nonneg b) as Hnn.
  assert (Hn : u32 (len b) = len b) by (apply u32_small; lia).
  destruct (Decode_frame c r mt b rest Hdata) as (k & Hdec).
  { rewrite Hn, len_app. pose proof (len_nonneg rest). lia. }
  rewrite Hn in Hdec. unfold len in Hdec. rewrite Nat2Z.id in Hdec.
  rewrite firstn_app, Nat.sub_diag, firstn_all, firstn_O, app_nil_r
    in Hdec.
  eexists. split; [exact Hdec |].
  rewrite advance_data, advance_fin, Hdata.
  split; [| reflexivity].
  unfold frame. rewrite <- app_assoc.
  change 5%nat with (length (header mt b)) at 1.
  rewrite Nat.add_comm, <- skipn_skipn, skipn_app, skipn_all, Nat.sub_diag.
  cbn [app skipn].
  rewrite skipn_app, skipn_all, Nat.sub_diag. reflexivity.
Qed.

(** X16. The round trip as the code has it: for every body shorter than
    2^32 bytes, decoding what [Encode] wrote yields the message. This
    includes the five lengths from [2^32 - 5] on, for which the size field
    [Encode] writes is below 5 and [Decode]'s subtraction wraps back to the
    body length. *)
Theorem Decode_Encode_roundtrip_below_2_32
        (fuel chunk : nat) (m m0 : M) (mt : MessageType)
        (b rest : list byte) (e : error) :
  M2MT c m = Ok mt ->
  MT2M c mt = Ok m0 ->
  MarshalBinary m = Ok b ->
  UnmarshalBinary m0 b = Ok m ->
  len b < 2 ^ 32 ->
  exists r' : Reader,
    Encode (S fuel) c (mkBuffer []) m
    = (Return None, mkBuffer (frame mt b))
    /\ Decode c (mkReader (frame mt b ++ rest) e chunk 0)
       = (Some m, None, r')
    /\ data r' = rest.
Proof.
  intros Hmt Hm0 Hb Hback Hfit.
  destruct (Decode_frame_exact (mkReader (frame mt b ++ rest) e chunk 0)
              mt b rest Hfit eq_refl) as (r' & Hdec & Hrest & _).
  unfold resolve_and_fill in Hdec. rewrite Hm0, Hback in Hdec.
  exists r'.
  split; [apply (Encode_Buffer c fuel (mkBuffer []) m mt b Hmt Hb) |].
  split; assumption.
Qed.

(** X17. Frames follow one another without gaps: when two messages are
    encoded one after the other into the same buffer, decoding the
    buffer's bytes yields the first message, decoding again from where the
    first decode stopped yields the second, and a third decode reports
    [io.EOF]. *)
Theorem Decode_two_frames
        (fuel chunk : nat) (m1 m01 m2 m02 : M) (mt1 mt2 : MessageType)
        (b1 b2 : list byte) :
  M2MT c m1 = Ok mt1 -> MT2M c mt1 = Ok m01 ->
  MarshalBinary m1 = Ok b1 -> UnmarshalBinary m01 b1 = Ok m1 ->
  len b1 < 2 ^ 32 ->
  M2MT c m2 = Ok mt2 -> MT2M c mt2 = Ok m02 ->
  MarshalBinary m2 = Ok b2 -> UnmarshalBinary m02 b2 = Ok m2 ->
  len b2 < 2 ^ 32 ->
  exists (w1 w2 : Buffer) (r1 r2 r3 : Reader),
    Encode (S fuel) c (mkBuffer []) m1 = (Return None, w1)
    /\ Encode (S fuel) c w1 m2 = (Return None, w2)
    /\ Decode c (stream (contents w2) chunk) = (Some m1, None, r1)
    /\ Decode c r1 = (Some m2, None, r2)
    /\ Decode c r2 = (None, Some EOF, r3).
Proof.
  intros Hmt1 Hm01 Hb1 Hback1 Hfit1 Hmt2 Hm02 Hb2 Hback2 Hfit2.
  destruct (Decode_frame_exact
              (stream (frame mt1 b1 ++ frame mt2 b2) chunk)
              mt1 b1 (frame mt2 b2) Hfit1 eq_refl)
    as (r1 & Hdec1 & Hrest1 & Hfin1).
  unfold resolve_and_fill in Hdec1. rewrite Hm01, Hback1 in Hdec1.
  destruct (Decode_frame_exact r1 mt2 b2 [] Hfit2)
    as (r2 & Hdec2 & Hrest2 & Hfin2).
  { rewrite Hrest1. now rewrite app_nil_r. }
  unfold resolve_and_fill in Hdec2. rewrite Hm02, Hback2 in Hdec2.
  destruct (Decode_header_short c r2) as (k & Hdec3 & _).
  { rewrite Hrest2. now vm_compute. }
  unfold short_error in Hdec3.
  rewrite Hrest2, Hfin2, Hfin1 in Hdec3.
  cbn [stream fin len length Z.of_nat Z.ltb Z.compare andb] in Hdec3.
  exists (mkBuffer (frame mt1 b1)),
         (mkBuffer (frame mt1 b1 ++ frame mt2 b2)), r1, r2.
  eexists.
  split; [apply (Encode_Buffer c fuel (mkBuffer []) m1 mt1 b1 Hmt1 Hb1) |].
  split;
    [apply (Encode_Buffer c fuel (mkBuffer (frame mt1 b1)) m2 mt2 b2
              Hmt2 Hb2) |].
  split; [exact Hdec1 |].
  split; [exact Hdec2 | exact Hdec3].
Qed.

End Frames.

Lemma Decode_Encode_roundtrip_below_2_32_witness :
  exists r' : Reader,
    Encode 1 RawCodec (mkBuffer []) (Raw Byte.x01 [Byte.x68; Byte.x69])
    = (Return None, mkBuffer (frame Byte.x01 [Byte.x68; Byte.x69]))
    /\ Decode RawCodec
              (mkReader (frame Byte.x01 [Byte.x68; Byte.x69] ++ [Byte.xff])
                        ErrShortWrite 0 0)
       = (Some (Raw Byte.x01 [Byte.x68; Byte.x69]), None, r')
    /\ data r' = [Byte.xff].
Proof.
  apply (Decode_Encode_roundtrip_below_2_32 RawCodec 0 0
           (Raw Byte.x01 [Byte.x68; Byte.x69]) (Raw Byte.x01 [])
           Byte.x01 [Byte.x68; Byte.x69] [Byte.xff] ErrShortWrite).
  - reflexivity.
  - reflexivity.
  - reflexivity.
  - reflexivity.
  - now vm_compute.
Defined.

Lemma Decode_two_frames_witness :
  exists (w1 w2 : Buffer) (r1 r2 r3 : Reader),
    Encode 1 RawCodec (mkBuffer []) (Raw Byte.x01 []) = (Return None, w1)
    /\ Encode 1 RawCodec w1 (Raw Byte.x02 [Byte.x68; Byte.x69])
       = (Return None, w2)
    /\ Decode RawCodec (stream (contents w2) 2)
       = (Some (Raw Byte.x01 []), None, r1)
    /\ Decode RawCodec r1
       = (Some (Raw Byte.x02 [Byte.x68; Byte.x69]), None, r2)
    /\ Decode RawCodec r2 = (None, Some EOF, r3).
Proof.
  apply (Decode_two_frames RawCodec 0 2
           (Raw Byte.x01 []) (Raw Byte.x01 [])
           (Raw Byte.x02 [Byte.x68; Byte.x69]) (Raw Byte.x02 [])
           Byte.x01 Byte.x02 [] [Byte.x68; Byte.x69]).
  - reflexivity.
  - reflexivity.
  - reflexivity.
  - reflexivity.
  - now vm_compute.
  - reflexivity.
  - reflexivity.
  - reflexivity.
  - reflexivity.
  - now vm_compute.
Defined.

(** ** What a decode takes from the stream *)

(** X18. Whatever the stream holds, [DecodeHdr] takes its first five bytes
    and no more (all of them when there are fewer), and leaves the
    reader's terminal error as it was. *)
Theorem DecodeHdr_takes_five (r : Reader) :
  data (snd (DecodeHdr r)) = skipn 5 (data r)
  /\ fin (snd (DecodeHdr r)) = fin r.
Proof.
  destruct (stream_cases (data r))
    as [Hshort | (b0 & b1 & b2 & b3 & b4 & rest & Hd)].
  - destruct (DecodeHdr_short r Hshort) as (k & Heq & _).
    rewrite Heq. cbn [snd]. rewrite advance_data, advance_fin, skipn_all.
    rewrite skipn_all2 by (unfold len in Hshort; lia).
    split; reflexivity.
  - destruct (DecodeHdr_ok r _ _ _ _ _ _ Hd) as (k & Heq & _).
    rewrite Heq. cbn [snd]. rewrite advance_data, advance_fin.
    split; reflexivity.
Qed.

(** X19. A header that declares a total size below 5 does not stop
    [Decode]: it asks the stream for [total_size + 4294967291] body bytes,
    and on every stream that holds fewer it consumes all that is left and
    returns the read error ([io.ErrUnexpectedEOF] when bytes followed the
    header and the stream ended with [io.EOF], the stream's own error
    otherwise). *)
Theorem Decode_small_total_size
        {M : Type} `{Message M} (c : Codec M)
        (r : Reader) (b0 b1 b2 b3 b4 : byte) (rest : list byte) :
  data r = b0 :: b1 :: b2 :: b3 :: b4 :: rest ->
  le32 b0 b1 b2 b3 < 5 ->
  len rest < le32 b0 b1 b2 b3 + 4294967291 ->
  u32 (le32 b0 b1 b2 b3 - HeaderSize) = le32 b0 b1 b2 b3 + 4294967291
  /\ exists r' : Reader,
       Decode c r
       = (None,
          Some (if (0 <? len rest) && error_eqb (fin r) EOF
                then ErrUnexpectedEOF else fin r),
          r')
       /\ data r' = [].
Proof.
  intros Hd Hsmall Hlen.
  pose proof (le32_range b0 b1 b2 b3) as Hr.
  split; [apply body_length_wraps; unfold HeaderSize; lia |].
  destruct (Decode_underflow_drains_stream c r _ _ _ _ _ _ Hd Hsmall Hlen)
    as (k & Heq & _).
  eexists. split; [exact Heq |].
  rewrite advance_data. apply skipn_all.
Qed.

Lemma Decode_small_total_size_witness :
  u32 (le32 Byte.x02 Byte.x00 Byte.x00 Byte.x00 - HeaderSize)
  = le32 Byte.x02 Byte.x00 Byte.x00 Byte.x00 + 4294967291
  /\ exists r' : Reader,
       Decode RawCodec
              (stream [Byte.x02; Byte.x00; Byte.x00; Byte.x00; Byte.x01;
                       Byte.x05; Byte.x00; Byte.x00; Byte.x00; Byte.x01] 4)
       = (None,
          Some (if (0 <? len [Byte.x05; Byte.x00; Byte.x00; Byte.x00;
                              Byte.x01])
                   && error_eqb EOF EOF
                then ErrUnexpectedEOF else EOF),
          r')
       /\ data r' = [].
Proof.
  apply (Decode_small_total_size RawCodec
           (stream [Byte.x02; Byte.x00; Byte.x00; Byte.x00; Byte.x01;
                    Byte.x05; Byte.x00; Byte.x00; Byte.x00; Byte.x01] 4)
           Byte.x02 Byte.x00 Byte.x00 Byte.x00 Byte.x01
           [Byte.x05; Byte.x00; Byte.x00; Byte.x00; Byte.x01]).
  - reflexivity.
  - now vm_compute.
  - now vm_compute.
Defined.
